(** * DCF valuation of [dcf_analysis_main.py]: shallow embedding and properties

    The development follows the script top-down:
    - [Py]      the Python fragments the script relies on (exceptions,
                [range], list indexing, float arithmetic);
    - [Pandas]  the handful of Series / DataFrame operations used by
                [get_financial_value] and by the FCFF assignment;
    - the body of [dcf_analysis]: label resolution, FCFF, the per-year
      loop and the output table.

    Numbers.  A Python float is modelled as [option Q]: [Some q] is the
    finite number [q], computed exactly, and [None] is NaN (the only
    non-number that the data path can introduce, through missing cells
    and index alignment).  Rounding, overflow (with the OverflowError
    that [**] raises on floats), underflow and infinities are outside
    the model; the one statement about rounding is made on binary64
    floats themselves.  The two rates are finite numbers ([Q]); the
    horizon is a Python int ([Z]). *)

From Stdlib Require Import ZArith QArith Qabs Qpower Qfield Lqa.
From Stdlib Require Import String List Bool Lia.
From Stdlib Require Sorted DecimalString DecimalZ PrimFloat.
Import ListNotations.

Open Scope Q_scope.

(* ------------------------------------------------------------------ *)
(** ** Python fragments *)

Module Py.

(** The exceptions that the valuation loop can raise. *)
Inductive pyerror : Type :=
| ZeroDivisionError
| IndexError.

(** A computation either returns a value or raises. *)
Inductive result (A : Type) : Type :=
| Ok (a : A)
| Raise (e : pyerror).
Arguments Ok {A} a.
Arguments Raise {A} e.

Definition bind {A B} (c : result A) (k : A -> result B) : result B :=
  match c with
  | Ok a => k a
  | Raise e => Raise e
  end.

Definition is_ok {A} (c : result A) : bool :=
  match c with Ok _ => true | Raise _ => false end.

(** A list comprehension whose element expression may raise: elements
    are evaluated left to right and the first exception aborts it. *)
Fixpoint comprehension {A B} (f : A -> result B) (l : list A)
  : result (list B) :=
  match l with
  | [] => Ok []
  | a :: l' =>
      bind (f a) (fun b =>
      bind (comprehension f l') (fun bs => Ok (b :: bs)))
  end.

(** [range(lo, hi)]; empty when [hi <= lo]. *)
Definition range (lo hi : Z) : list Z :=
  map (fun k => (lo + Z.of_nat k)%Z) (seq 0 (Z.to_nat (hi - lo))).

(** [enumerate(l)]. *)
Definition enumerate {A} (l : list A) : list (Z * A) :=
  combine (range 0 (Z.of_nat (length l))) l.

(** [l[i]] with Python's negative indices; [IndexError] out of range. *)
Definition getitem {A} (l : list A) (i : Z) : result A :=
  let n := Z.of_nat (length l) in
  let k := if (i <? 0)%Z then (i + n)%Z else i in
  if ((k <? 0) || (n <=? k))%Z%bool then Raise IndexError
  else match nth_error l (Z.to_nat k) with
       | Some a => Ok a
       | None => Raise IndexError
       end.

(** Floats: [None] is NaN. *)
Definition pyfloat : Type := option Q.
Definition nan : pyfloat := None.
Definition num (q : Q) : pyfloat := Some q.

Definition fadd (x y : pyfloat) : pyfloat :=
  match x, y with
  | Some a, Some b => Some (a + b)
  | _, _ => None
  end.

Definition fsub (x y : pyfloat) : pyfloat :=
  match x, y with
  | Some a, Some b => Some (a - b)
  | _, _ => None
  end.

Definition fmul (x y : pyfloat) : pyfloat :=
  match x, y with
  | Some a, Some b => Some (a * b)
  | _, _ => None
  end.

(** [x / y] on Python floats: a zero divisor raises whatever the
    dividend is (also for a NaN dividend); otherwise NaN propagates. *)
Definition quotient (x : pyfloat) (d : Q) : pyfloat :=
  match x with
  | Some a => Some (a / d)
  | None => None
  end.

Definition fdiv (x y : pyfloat) : result pyfloat :=
  match y with
  | Some d =>
      if Qeq_bool d 0 then Raise ZeroDivisionError
      else Ok (quotient x d)
  | None => Ok None
  end.

(** The builtin [sum(l)]: starts from [0] and adds left to right. *)
Definition sum (l : list pyfloat) : pyfloat :=
  fold_left fadd l (Some 0).

(** Equality of floats up to the representation of the rational;
    NaN is identified with itself, as a marker of the missing value. *)
Definition feq (x y : pyfloat) : Prop :=
  match x, y with
  | Some a, Some b => a == b
  | None, None => True
  | _, _ => False
  end.

End Py.
Import Py.

Notation "x <- c ;; k" := (bind c (fun x => k))
  (at level 61, c at next level, right associativity).

(* ------------------------------------------------------------------ *)
(** ** The per-year valuation (body of the loop, lines 91-110) *)

Section YearValuation.

Variable discount_rate : Q.
Variable terminal_growth_rate : Q.
Variable projection_years : Z.

(** [[current_fcff * (1 + g) ** j for j in range(1, N + 1)]] *)
Definition projected_fcffs (current_fcff : pyfloat) : list pyfloat :=
  map (fun j => fmul current_fcff (num ((1 + terminal_growth_rate) ^ j)))
      (range 1 (projection_years + 1)).

(** [[(1 + r) ** j for j in range(1, N + 1)]] *)
Definition discount_factors : list Q :=
  map (fun j => (1 + discount_rate) ^ j) (range 1 (projection_years + 1)).

(** [[fcff / discount_factors[j] for j, fcff in enumerate(projected)]] *)
Definition discounted_fcffs (projected : list pyfloat) (factors : list Q)
  : result (list pyfloat) :=
  comprehension
    (fun jf : Z * pyfloat =>
       d <- getitem factors (fst jf) ;;
       fdiv (snd jf) (num d))
    (enumerate projected).

(** [projected[-1] * (1 + g) / (r - g)] *)
Definition terminal_value (projected : list pyfloat) : result pyfloat :=
  last_projected <- getitem projected (-1) ;;
  fdiv (fmul last_projected (num (1 + terminal_growth_rate)))
       (num (discount_rate - terminal_growth_rate)).

(** [terminal_value / discount_factors[-1]] *)
Definition terminal_value_pv (tv : pyfloat) (factors : list Q)
  : result pyfloat :=
  d <- getitem factors (-1) ;;
  fdiv tv (num d).

(** What one iteration computes, in the order the script computes it. *)
Record year_valuation : Type := {
  yv_projected : list pyfloat;
  yv_discounted : list pyfloat;
  yv_terminal_value : pyfloat;
  yv_terminal_value_pv : pyfloat;
  yv_net_present_value : pyfloat
}.

Definition value_year (current_fcff : pyfloat) : result year_valuation :=
  let projected := projected_fcffs current_fcff in
  let factors := discount_factors in
  discounted <- discounted_fcffs projected factors ;;
  tv <- terminal_value projected ;;
  tv_pv <- terminal_value_pv tv factors ;;
  let npv := fadd (sum discounted) tv_pv in
  Ok {| yv_projected := projected;
        yv_discounted := discounted;
        yv_terminal_value := tv;
        yv_terminal_value_pv := tv_pv;
        yv_net_present_value := npv |}.

End YearValuation.

(* ------------------------------------------------------------------ *)
(** ** The loop over the historical years (lines 85-114) and the
       output table (lines 117-122) *)

(** The two accumulators of the loop. *)
Record loop_state : Type := {
  terminal_values : list pyfloat;
  net_present_values : list pyfloat
}.

(** [for x in l: st = body(st, x)], stopping at the first exception. *)
Fixpoint for_each {S A} (body : S -> A -> result S) (l : list A) (st : S)
  : result S :=
  match l with
  | [] => Ok st
  | a :: l' => st' <- body st a ;; for_each body l' st'
  end.

(** The columns of [output_df]: 'Year', 'Free Cash Flow to Firm (in
    millions)', 'Terminal Value (in millions)' and 'Net Present Value
    (in millions)'. *)
Record output_df : Type := {
  col_year : list Z;
  col_fcff_millions : list pyfloat;
  col_terminal_value_millions : list pyfloat;
  col_npv_millions : list pyfloat
}.

(** [[x / 1_000_000 for x in l]] *)
Definition in_millions (l : list pyfloat) : result (list pyfloat) :=
  comprehension (fun x => fdiv x (num (inject_Z 1000000))) l.

Section Valuation.

Variable historical_years : list Z.
Variable historical_fcffs : list pyfloat.
Variable discount_rate : Q.
Variable terminal_growth_rate : Q.
Variable projection_years : Z.

(** One iteration, for index [i].  The fiscal year is only read to be
    printed, after [current_fcff] has been fetched. *)
Definition loop_body (st : loop_state) (i : Z) : result loop_state :=
  current_fcff <- getitem historical_fcffs i ;;
  _ <- getitem historical_years i ;;
  v <- value_year discount_rate terminal_growth_rate projection_years
         current_fcff ;;
  Ok {| terminal_values := terminal_values st ++ [yv_terminal_value_pv v];
        net_present_values :=
          net_present_values st ++ [yv_net_present_value v] |}.

(** [for i in range(len(historical_fcffs)): ...] from empty lists. *)
Definition dcf_loop : result loop_state :=
  for_each loop_body
    (range 0 (Z.of_nat (length historical_fcffs)))
    {| terminal_values := []; net_present_values := [] |}.

(** The loop followed by the construction of the output table.  The
    table is built only once the loop has finished, so an exception
    in any iteration leaves no table at all. *)
Definition dcf_table : result output_df :=
  st <- dcf_loop ;;
  fcff_m <- in_millions historical_fcffs ;;
  tv_m <- in_millions (terminal_values st) ;;
  npv_m <- in_millions (net_present_values st) ;;
  Ok {| col_year := historical_years;
        col_fcff_millions := fcff_m;
        col_terminal_value_millions := tv_m;
        col_npv_millions := npv_m |}.

End Valuation.

(* ------------------------------------------------------------------ *)
(** ** The pandas operations used by the script *)

Module Pandas.

(** A Series: values labelled by the index, in positional order. *)
Definition Series : Type := list (Z * pyfloat).

(** A row of the frame: its index label, its fiscal year ['fy'] and
    its cells by column name. *)
Record Row : Type := {
  row_label : Z;
  row_fy : Z;
  row_cells : list (string * pyfloat)
}.

(** A DataFrame: the column names and the rows.  Row labels are
    unique in the frames the script handles: they are inherited from
    the positional index of the merge result through a boolean filter
    and [drop_duplicates]. *)
Record DataFrame : Type := {
  columns : list string;
  rows : list Row
}.

Fixpoint assoc {A} (k : string) (l : list (string * A)) : option A :=
  match l with
  | [] => None
  | (k', a) :: l' => if String.eqb k k' then Some a else assoc k l'
  end.

(** The cell of a row under a column; a cell that is not filled is NaN. *)
Definition cell (r : Row) (label : string) : pyfloat :=
  match assoc label (row_cells r) with
  | Some v => v
  | None => nan
  end.

(** [len(df)] *)
Definition len (df : DataFrame) : nat := length (rows df).

(** [label in df.columns] *)
Definition has_column (df : DataFrame) (label : string) : bool :=
  existsb (String.eqb label) (columns df).

(** [df[label]]: the column, carrying the index of the frame. *)
Definition column (df : DataFrame) (label : string) : Series :=
  map (fun r => (row_label r, cell r label)) (rows df).

(** [pd.Series([v] * n)]: a fresh Series gets the positional index
    [0 .. n-1]. *)
Definition constant_series (v : pyfloat) (n : nat) : Series :=
  combine (range 0 (Z.of_nat n)) (repeat v n).

(** [s.abs()]; NaN stays NaN. *)
Definition abs (s : Series) : Series :=
  map (fun lv => (fst lv, option_map Qabs (snd lv))) s.

(** [s.fillna(0)] *)
Definition fillna0 (s : Series) : Series :=
  map (fun lv => (fst lv, match snd lv with
                          | Some q => Some q
                          | None => Some 0
                          end)) s.

(** [s.sum()]: NaN entries are skipped; the empty sum is 0. *)
Definition sum (s : Series) : Q :=
  fold_right (fun lv acc => match snd lv with
                            | Some q => q + acc
                            | None => acc
                            end) 0 s.

(** The value of a Series at an index label. *)
Fixpoint lookup (s : Series) (l : Z) : option pyfloat :=
  match s with
  | [] => None
  | (l', v) :: s' => if (l =? l')%Z then Some v else lookup s' l
  end.

(** [a - b]: the operands are aligned on their index labels.  The
    result is indexed by the union of the two indexes; a label that
    one side lacks gives NaN.  (The position of the labels in the
    union is not observable here: the only use of the result is the
    assignment below, which reads it by label.) *)
Definition sub (a b : Series) : Series :=
  let la := map fst a in
  let lb := filter (fun l => negb (existsb (Z.eqb l) la)) (map fst b) in
  map (fun l => (l, match lookup a l, lookup b l with
                    | Some x, Some y => fsub x y
                    | _, _ => nan
                    end)) (la ++ lb).

(** [df[name] = s], read back with [df[name].tolist()]: each row takes
    the value of [s] at its own label, NaN when [s] has no such label. *)
Definition assigned_column (df : DataFrame) (s : Series) : list pyfloat :=
  map (fun r => match lookup s (row_label r) with
                | Some v => v
                | None => nan
                end) (rows df).

(** [s.tolist()] *)
Definition tolist (s : Series) : list pyfloat := map snd s.

End Pandas.

(* ------------------------------------------------------------------ *)
(** ** Label resolution, FCFF and the whole of [dcf_analysis] *)

Definition Qgt_bool (a b : Q) : bool := negb (Qle_bool a b).

(** The two variables that the loop of [get_financial_value] updates. *)
Record resolver_state : Type := {
  max_abs_value : Pandas.Series;
  found_label : option string
}.

Section Resolver.

Variable df : Pandas.DataFrame.

(** Body of [for label in possible_labels] (lines 54-59). *)
Definition resolver_step (st : resolver_state) (label : string)
  : resolver_state :=
  if Pandas.has_column df label then
    let current_abs_value := Pandas.abs (Pandas.column df label) in
    if Qgt_bool (Pandas.sum current_abs_value)
                (Pandas.sum (max_abs_value st))
    then {| max_abs_value := Pandas.fillna0 (Pandas.column df label);
            found_label := Some label |}
    else st
  else st.

(** [get_financial_value(df, possible_labels)] (lines 49-62).  The
    script returns [max_abs_value] and prints [found_label]; both are
    kept. *)
Definition get_financial_value (possible_labels : list string)
  : resolver_state :=
  fold_left resolver_step possible_labels
    {| max_abs_value := Pandas.constant_series (num 0) (Pandas.len df);
       found_label := None |}.

End Resolver.

(** [label_variations['cfo']] and [label_variations['capex']]. *)
Definition label_variations_cfo : list string :=
  ["NetCashProvidedByUsedInOperatingActivities"%string].
Definition label_variations_capex : list string :=
  ["PaymentsToAcquirePropertyPlantAndEquipment"%string].

(** [apple_df['FCFF'] = cfo - capex] followed by
    [apple_df['FCFF'].tolist()] (lines 73 and 80), for given candidate
    label lists. *)
Definition fcff_column (df : Pandas.DataFrame) (cfo_labels capex_labels : list string)
  : list pyfloat :=
  let cfo := max_abs_value (get_financial_value df cfo_labels) in
  let capex := max_abs_value (get_financial_value df capex_labels) in
  Pandas.assigned_column df (Pandas.sub cfo capex).

(** [dcf_analysis] from the merged frame onwards (lines 42-122). *)
Definition dcf_analysis (apple_df : Pandas.DataFrame)
    (discount_rate terminal_growth_rate : Q) (projection_years : Z)
  : result output_df :=
  let historical_years := map Pandas.row_fy (Pandas.rows apple_df) in
  let historical_fcffs :=
    fcff_column apple_df label_variations_cfo label_variations_capex in
  dcf_table historical_years historical_fcffs
    discount_rate terminal_growth_rate projection_years.

(* ------------------------------------------------------------------ *)
(** ** Closed forms and the design's reading of the valuation

    The definitions below are not taken from the script.  They write
    down, for comparison with the code above, the quantities that the
    design document gives by formula (sections 4.3 to 4.5). *)

Section Design.

Variables (r g : Q) (N : Z).

(** The rate configurations under which an iteration raises, and the
    exception it raises: a non-positive horizon makes [projected[-1]]
    fail, a discount rate of -1 makes every discount factor zero, and
    equal rates make the denominator of the terminal value zero. *)
Definition config_error : option pyerror :=
  if (N <=? 0)%Z then Some IndexError
  else if Qeq_bool (1 + r) 0 then Some ZeroDivisionError
  else if Qeq_bool r g then Some ZeroDivisionError
  else None.

(** [discount(project(fcff, g, N), r)], element by element. *)
Definition discounted_closed (x : pyfloat) : list pyfloat :=
  map (fun k : nat =>
         quotient (fmul x (num ((1 + g) ^ (Z.of_nat k + 1))))
                  ((1 + r) ^ (Z.of_nat k + 1)))
      (seq 0 (Z.to_nat N)).

(** [TV = last_projected * (1+g) / (r-g)] *)
Definition design_terminal_value (last_projected : pyfloat) : pyfloat :=
  quotient (fmul last_projected (num (1 + g))) (r - g).

(** [PV_TV = TV / (1+r)^horizon] *)
Definition design_terminal_value_pv (last_projected : pyfloat) : pyfloat :=
  quotient (design_terminal_value last_projected) ((1 + r) ^ N).

(** The last element of the projected series, [fcff * (1+g)^N]. *)
Definition design_last_projected (x : pyfloat) : pyfloat :=
  fmul x (num ((1 + g) ^ N)).

(** [NPV = sum(discounted series) + PV_TV] *)
Definition design_npv (x : pyfloat) : pyfloat :=
  fadd (sum (discounted_closed x))
       (design_terminal_value_pv (design_last_projected x)).

(** The valuation of one year, as the design defines it. *)
Definition design_year (x : pyfloat) : year_valuation :=
  {| yv_projected := projected_fcffs g N x;
     yv_discounted := discounted_closed x;
     yv_terminal_value := design_terminal_value (design_last_projected x);
     yv_terminal_value_pv :=
       design_terminal_value_pv (design_last_projected x);
     yv_net_present_value := design_npv x |}.

(** A ValuationResult: the fiscal year as supplied and the three
    monetary figures in millions. *)
Record ValuationResult : Type := {
  vr_year : Z;
  vr_fcff : pyfloat;
  vr_terminal_value_pv : pyfloat;
  vr_npv : pyfloat
}.

Definition millions (x : pyfloat) : pyfloat :=
  quotient x (inject_Z 1000000).


End Design.

(** The rows of an output table, read across its four columns. *)
Fixpoint table_rows (ys : list Z) (fs tvs npvs : list pyfloat)
  : list ValuationResult :=
  match ys, fs, tvs, npvs with
  | y :: ys', f :: fs', tv :: tvs', npv :: npvs' =>
      {| vr_year := y; vr_fcff := f;
         vr_terminal_value_pv := tv; vr_npv := npv |}
      :: table_rows ys' fs' tvs' npvs'
  | _, _, _, _ => []
  end.

Definition output_rows (t : output_df) : list ValuationResult :=
  table_rows (col_year t) (col_fcff_millions t)
             (col_terminal_value_millions t) (col_npv_millions t).

(** The sum of absolute values of a column across all periods. *)
Definition abs_sum (df : Pandas.DataFrame) (label : string) : Q :=
  Pandas.sum (Pandas.abs (Pandas.column df label)).


(** [fillna(0)] on one cell. *)
Definition fill0 (x : pyfloat) : pyfloat :=
  match x with
  | Some q => Some q
  | None => Some 0
  end.

(** A cell that holds a number other than zero. *)
Definition nonzero_cell (x : pyfloat) : Prop :=
  exists q, x = Some q /\ ~ q == 0.

(* ------------------------------------------------------------------ *)
(** ** The two statement items of the valuation *)

Definition cfo_label : string :=
  "NetCashProvidedByUsedInOperatingActivities"%string.
Definition capex_label : string :=
  "PaymentsToAcquirePropertyPlantAndEquipment"%string.

(* ------------------------------------------------------------------ *)
(** ** [process_input_data] (lines 3-35)

    The frame read from the spreadsheet holds, for each filing, the
    fiscal year ['fy'], the form type ['form'], the company ['name']
    and the statement items.  A key cell may be empty (NaN); a
    statement item is a float. *)

Module Sheet.

Record Row : Type := {
  fy : option Z;
  form : option string;
  name : option string;
  cells : list (string * pyfloat)
}.

Record Frame : Type := {
  columns : list string;
  rows : list Row
}.

(** Selecting columns either gives the data or raises [KeyError]. *)
Inductive loaded (A : Type) : Type :=
| Loaded (a : A)
| KeyError.
Arguments Loaded {A} a.
Arguments KeyError {A}.

Definition balance_sheet_items : list string :=
  ["Assets"; "Liabilities"; "Equity"]%string.
Definition income_statement_items : list string :=
  ["Revenues"; "OperatingIncomeLoss";
   "IncomeLossFromContinuingOperationsBeforeIncomeTaxExpenseBenefit";
   "AllIncomeTaxExpenseBenefit"]%string.
Definition cash_flow_items : list string :=
  ["NetCashProvidedByUsedInOperatingActivities";
   "PaymentsToAcquirePropertyPlantAndEquipment";
   "DepreciationDepletionAndAmortization"]%string.

(** A row of one statement: the key columns and the selected items. *)
Record StatementRow : Type := {
  st_fy : option Z;
  st_form : option string;
  st_name : option string;
  st_values : list pyfloat
}.

Definition has_columns (df : Frame) (cols : list string) : bool :=
  forallb (fun c => existsb (String.eqb c) (columns df)) cols.

Definition item (r : Row) (c : string) : pyfloat :=
  match Pandas.assoc c (cells r) with
  | Some v => v
  | None => nan
  end.

(** The part of a row that a statement keeps. *)
Definition statement_row (items : list string) (r : Row) : StatementRow :=
  {| st_fy := fy r; st_form := form r; st_name := name r;
     st_values := map (item r) items |}.

(** [df[['fy', 'form', 'name'] + items]]: [KeyError] if a column is
    missing. *)
Definition select (df : Frame) (items : list string)
  : loaded (list StatementRow) :=
  if has_columns df ("fy" :: "form" :: "name" :: items)%string then
    Loaded (map (statement_row items) (rows df))
  else KeyError.

(** [.dropna(subset=['name'])] *)
Definition dropna_name (l : list StatementRow) : list StatementRow :=
  filter (fun r => match st_name r with Some _ => true | None => false end) l.

(** The grouping key (fy, form, name) and its order: by fiscal year,
    then by form, then by name, strings being compared character by
    character. *)
Definition Key : Type := (Z * string * string)%type.

Definition key_compare (k k' : Key) : comparison :=
  match Z.compare (fst (fst k)) (fst (fst k')) with
  | Eq => match String.compare (snd (fst k)) (snd (fst k')) with
          | Eq => String.compare (snd k) (snd k')
          | c => c
          end
  | c => c
  end.

Definition key_eqb (k k' : Key) : bool :=
  match key_compare k k' with Eq => true | _ => false end.

(** The key of a row; a row with an empty key cell belongs to no
    group. *)
Definition key_of (r : StatementRow) : option Key :=
  match st_fy r, st_form r, st_name r with
  | Some y, Some f, Some n => Some (y, f, n)
  | _, _, _ => None
  end.

Definition in_group (k : Key) (r : StatementRow) : bool :=
  match key_of r with
  | Some k' => key_eqb k k'
  | None => false
  end.

Fixpoint insert_key (k : Key) (l : list Key) : list Key :=
  match l with
  | [] => [k]
  | k' :: l' =>
      match key_compare k k' with
      | Lt => k :: l
      | Eq => l
      | Gt => k' :: insert_key k l'
      end
  end.

(** The distinct keys of the rows, in ascending order. *)
Definition group_keys (l : list StatementRow) : list Key :=
  fold_right (fun r acc => match key_of r with
                           | Some k => insert_key k acc
                           | None => acc
                           end) [] l.

(** The sum of one item over the rows of a group; NaN is skipped and
    the sum of nothing is 0. *)
Definition item_sum (vals : list pyfloat) : Q :=
  fold_right (fun v acc => match v with
                           | Some q => q + acc
                           | None => acc
                           end) 0 vals.

Record GroupRow : Type := {
  g_key : Key;
  g_values : list pyfloat
}.

(** [.groupby(['fy', 'form', name]).sum().reset_index()] for a
    statement with [width] items. *)
Definition groupby_sum (width : nat) (l : list StatementRow) : list GroupRow :=
  map (fun k =>
         {| g_key := k;
            g_values :=
              map (fun j => num (item_sum
                                   (map (fun r => nth j (st_values r) nan)
                                        (filter (in_group k) l))))
                  (seq 0 width) |})
      (group_keys l).

(** [pd.merge(left, right, how='inner', left_on=..., right_on=...)]:
    the pairs of rows with equal keys, in the order of the left rows. *)
Definition merge_inner {A B} (ka : A -> Key) (kb : B -> Key)
    (left : list A) (right : list B) : list (A * B) :=
  flat_map (fun a => map (fun b => (a, b))
                         (filter (fun b => key_eqb (ka a) (kb b)) right))
           left.

(** A row of [merged_df] with its index label. *)
Record MergedRow : Type := {
  m_label : Z;
  m_fy : Z;
  m_form : string;
  m_bs_name : string;
  m_is_name : string;
  m_cf_name : string;
  m_bs : list pyfloat;
  m_is : list pyfloat;
  m_cf : list pyfloat
}.

Definition merged_row (l : Z) (p : GroupRow * GroupRow * GroupRow) : MergedRow :=
  let bs := fst (fst p) in
  let is_ := snd (fst p) in
  let cf := snd p in
  {| m_label := l;
     m_fy := fst (fst (g_key bs));
     m_form := snd (fst (g_key bs));
     m_bs_name := snd (g_key bs);
     m_is_name := snd (g_key is_);
     m_cf_name := snd (g_key cf);
     m_bs := g_values bs; m_is := g_values is_; m_cf := g_values cf |}.

(** The two merges; the result is indexed by position. *)
Definition merged_df (bs is_ cf : list GroupRow) : list MergedRow :=
  let m1 := merge_inner g_key g_key bs is_ in
  let m2 := merge_inner (fun p => g_key (fst p)) g_key m1 cf in
  map (fun lp => merged_row (fst lp) (snd lp))
      (combine (range 0 (Z.of_nat (length m2))) m2).

(** The boolean filter on the three name columns; rows keep their
    labels. *)
Definition is_apple (r : MergedRow) : bool :=
  (String.eqb (m_bs_name r) "APPLE INC" ||
   String.eqb (m_is_name r) "APPLE INC" ||
   String.eqb (m_cf_name r) "APPLE INC")%bool.

(** [.drop_duplicates(subset=['fy', 'form'])]: the first row of every
    (fy, form) pair is kept. *)
Fixpoint drop_duplicates (seen : list (Z * string)) (l : list MergedRow)
  : list MergedRow :=
  match l with
  | [] => []
  | r :: l' =>
      if existsb (fun k => (fst k =? m_fy r)%Z && String.eqb (snd k) (m_form r))
                 seen
      then drop_duplicates seen l'
      else r :: drop_duplicates ((m_fy r, m_form r) :: seen) l'
  end.

(** The rows of [apple_df]. *)
Definition apple_rows (df : Frame) : loaded (list MergedRow) :=
  match select df balance_sheet_items with
  | KeyError => KeyError
  | Loaded bs =>
      match select df income_statement_items with
      | KeyError => KeyError
      | Loaded is_ =>
          match select df cash_flow_items with
          | KeyError => KeyError
          | Loaded cf =>
              let balance_sheet_df := groupby_sum 3 (dropna_name bs) in
              let income_statement_df := groupby_sum 4 (dropna_name is_) in
              let cash_flow_df := groupby_sum 3 (dropna_name cf) in
              let merged :=
                merged_df balance_sheet_df income_statement_df cash_flow_df in
              Loaded (drop_duplicates [] (filter is_apple merged))
          end
      end
  end.

(** The columns of [apple_df]. *)
Definition apple_columns : list string :=
  ["fy"; "form"; "bs_name"]%string ++ balance_sheet_items ++
  ["is_name"%string] ++ income_statement_items ++
  ["cf_name"%string] ++ cash_flow_items.

(** A row of [apple_df] as the valuation reads it: its label, its
    fiscal year and its statement items.  The string columns are not
    read downstream and are not carried over. *)
Definition to_row (r : MergedRow) : Pandas.Row :=
  {| Pandas.row_label := m_label r;
     Pandas.row_fy := m_fy r;
     Pandas.row_cells :=
       combine balance_sheet_items (m_bs r) ++
       combine income_statement_items (m_is r) ++
       combine cash_flow_items (m_cf r) |}.

Definition process_input_data (df : Frame) : loaded Pandas.DataFrame :=
  match apple_rows df with
  | KeyError => KeyError
  | Loaded l =>
      Loaded {| Pandas.columns := apple_columns;
                Pandas.rows := map to_row l |}
  end.

End Sheet.

(** The strict order on keys. *)
Definition key_lt (k k' : Sheet.Key) : Prop := Sheet.key_compare k k' = Lt.

(** The key of a filing of the sheet, when its three key cells are
    filled. *)
Definition row_key (r : Sheet.Row) : option Sheet.Key :=
  match Sheet.fy r, Sheet.form r, Sheet.name r with
  | Some y, Some f, Some n => Some (y, f, n)
  | _, _, _ => None
  end.

(** The distinct keys of the sheet, ascending. *)
Definition sheet_keys (df : Sheet.Frame) : list Sheet.Key :=
  fold_right (fun r acc => match row_key r with
                           | Some k => Sheet.insert_key k acc
                           | None => acc
                           end) [] (Sheet.rows df).

(** The filings of the sheet that carry a given key. *)
Definition filings (df : Sheet.Frame) (k : Sheet.Key) : list Sheet.Row :=
  filter (fun r => match row_key r with
                   | Some k' => Sheet.key_eqb k k'
                   | None => false
                   end) (Sheet.rows df).

(** The total of an item over the filings of a key, NaN skipped. *)
Definition total (df : Sheet.Frame) (k : Sheet.Key) (c : string) : Q :=
  Sheet.item_sum (map (fun r => Sheet.item r c) (filings df k)).

(** The row of the merged frame for a key, under a given label. *)
Definition key_row (df : Sheet.Frame) (l : Z) (k : Sheet.Key) : Sheet.MergedRow :=
  {| Sheet.m_label := l;
     Sheet.m_fy := fst (fst k);
     Sheet.m_form := snd (fst k);
     Sheet.m_bs_name := snd k;
     Sheet.m_is_name := snd k;
     Sheet.m_cf_name := snd k;
     Sheet.m_bs := map (fun c => num (total df k c)) Sheet.balance_sheet_items;
     Sheet.m_is := map (fun c => num (total df k c)) Sheet.income_statement_items;
     Sheet.m_cf := map (fun c => num (total df k c)) Sheet.cash_flow_items |}.

(** The keys of the sheet with their positions, which become the
    labels of the merged frame. *)
Definition labelled_keys (df : Sheet.Frame) : list (Z * Sheet.Key) :=
  combine (range 0 (Z.of_nat (length (sheet_keys df)))) (sheet_keys df).

Definition apple_key (lk : Z * Sheet.Key) : bool :=
  String.eqb (snd (snd lk)) "APPLE INC".

(** A sheet with filings of two companies.  APPLE INC has two filings
    for 2021 and one for 2020, none with capital expenditures; the key
    of the other company sorts before those of APPLE INC. *)
Definition sample_filing (y : Z) (n : string) (cfo capex : pyfloat) : Sheet.Row :=
  {| Sheet.fy := Some y; Sheet.form := Some "10-K"%string; Sheet.name := Some n;
     Sheet.cells :=
       [("Assets"%string, num 1);
        ("NetCashProvidedByUsedInOperatingActivities"%string, cfo);
        ("PaymentsToAcquirePropertyPlantAndEquipment"%string, capex)] |}.

Definition sheet_with_capex (capex : pyfloat) : Sheet.Frame :=
  {| Sheet.columns :=
       ["fy"; "form"; "name"]%string ++ Sheet.balance_sheet_items ++
       Sheet.income_statement_items ++ Sheet.cash_flow_items;
     Sheet.rows :=
       [ sample_filing 2021 "APPLE INC" (num 10) capex;
         sample_filing 2020 "AMAZON COM INC" (num 5) (num 2);
         sample_filing 2020 "APPLE INC" (num 7) (num 0);
         sample_filing 2021 "APPLE INC" (num 1) nan;
         {| Sheet.fy := None; Sheet.form := Some "10-K"%string;
            Sheet.name := Some "APPLE INC"%string; Sheet.cells := [] |} ] |}.

Definition sample_sheet : Sheet.Frame := sheet_with_capex nan.

(** The same sheet with a capital expenditure of 3 in 2021. *)
Definition sample_sheet_capex : Sheet.Frame := sheet_with_capex (num 3).

(** The frame that [process_input_data] returns for a sheet that holds
    the required columns, in closed form. *)
Definition apple_frame (df : Sheet.Frame) : Pandas.DataFrame :=
  {| Pandas.columns := Sheet.apple_columns;
     Pandas.rows :=
       map Sheet.to_row
         (map (fun lk => key_row df (fst lk) (snd lk))
              (filter apple_key (labelled_keys df))) |}.

(** The columns that [process_input_data] selects. *)
Definition required_columns : list string :=
  ["fy"; "form"; "name"]%string ++ Sheet.balance_sheet_items ++
  Sheet.income_statement_items ++ Sheet.cash_flow_items.

(** The order of the rows of [apple_df]: by fiscal year, then by form. *)
Definition year_form_lt (r r' : Sheet.MergedRow) : Prop :=
  (Sheet.m_fy r < Sheet.m_fy r')%Z \/
  (Sheet.m_fy r = Sheet.m_fy r' /\
   String.compare (Sheet.m_form r) (Sheet.m_form r') = Lt).

(** [dcf_analysis] from the frame read from the spreadsheet. *)
Definition dcf_analysis_of_sheet (df : Sheet.Frame)
    (discount_rate terminal_growth_rate : Q) (projection_years : Z)
  : Sheet.loaded (result output_df) :=
  match Sheet.process_input_data df with
  | Sheet.KeyError => Sheet.KeyError
  | Sheet.Loaded apple_df =>
      Sheet.Loaded (dcf_analysis apple_df discount_rate terminal_growth_rate
                                 projection_years)
  end.

(* ------------------------------------------------------------------ *)
(** ** The first discounted value in binary64

    For a horizon of one year the loop computes one discounted value,
    [projected_fcffs[0] / discount_factors[0]], where
    [projected_fcffs[0]] is [current_fcff * (1 + g) ** 1] and
    [discount_factors[0]] is [(1 + r) ** 1] (lines 95, 99 and 100);
    [x ** 1] is [x].  The two definitions below evaluate it, and the
    regrouped formula of the design, with the operations of Python's
    floats: IEEE 754 binary64, rounding to nearest. *)

Section Binary64.

Import PrimFloat.
Open Scope float_scope.





End Binary64.

(* ------------------------------------------------------------------ *)
(** ** Two more sheets *)


(** A sheet that lacks the column of capital expenditures. *)
Definition sheet_without_capex : Sheet.Frame :=
  {| Sheet.columns :=
       ["fy"; "form"; "name"]%string ++ Sheet.balance_sheet_items ++
       Sheet.income_statement_items ++
       ["NetCashProvidedByUsedInOperatingActivities";
        "DepreciationDepletionAndAmortization"]%string;
     Sheet.rows :=
       [ sample_filing 2021 "APPLE INC" (num 10) nan;
         sample_filing 2020 "APPLE INC" (num 7) nan ] |}.

(* ------------------------------------------------------------------ *)
(** ** The archive names of [get_combined_financials]
       (10k_data_collection.py, line 12) *)

(** [str(z)] for an int: its decimal digits, after a minus sign when
    negative. *)
Definition py_str (z : Z) : string :=
  DecimalString.NilEmpty.string_of_int (Z.to_int z).

(** [f"{year}q{q}.zip"] *)
Definition zip_name (year q : Z) : string :=
  (py_str year ++ "q" ++ py_str q ++ ".zip")%string.

(** [[f"{year}q{q}.zip" for year in years for q in range(1, 5)]] *)
Definition zip_names (years : list Z) : list string :=
  flat_map (fun year => map (zip_name year) (range 1 5)) years.

(** A character occurs in a string. *)
Fixpoint occurs (c : Ascii.ascii) (s : string) : Prop :=
  match s with
  | EmptyString => False
  | String c' s' => c = c' \/ occurs c s'
  end.

(* ================================================================== *)
(** * Properties *)

(** ** Lists, [range] and indexing *)

Lemma range_length (lo hi : Z) :
  length (range lo hi) = Z.to_nat (hi - lo).
Proof. unfold range. now rewrite length_map, length_seq. Qed.

Lemma range_nth_error (lo hi : Z) (k : nat) :
  (k < Z.to_nat (hi - lo))%nat ->
  nth_error (range lo hi) k = Some (lo + Z.of_nat k)%Z.
Proof.
  intros Hk. unfold range.
  rewrite nth_error_map, nth_error_seq.
  destruct (Nat.ltb_spec k (Z.to_nat (hi - lo))) as [_ | Hge]; [reflexivity | lia].
Qed.

Lemma range_empty (lo hi : Z) : (hi <= lo)%Z -> range lo hi = [].
Proof.
  intros H. unfold range.
  replace (Z.to_nat (hi - lo)) with 0%nat by lia. reflexivity.
Qed.

Lemma range_succ (lo hi : Z) :
  (lo < hi)%Z -> range lo hi = lo :: range (lo + 1) hi.
Proof.
  intros H. unfold range.
  replace (Z.to_nat (hi - lo)) with (S (Z.to_nat (hi - (lo + 1)))) by lia.
  cbn [seq map]. f_equal; [lia |].
  rewrite <- seq_shift, map_map.
  apply map_ext. intros k. lia.
Qed.

(** In-range indexing never raises. *)
Lemma getitem_in_range {A} (l : list A) (i : Z) (a : A) :
  (0 <= i)%Z -> nth_error l (Z.to_nat i) = Some a -> getitem l i = Ok a.
Proof.
  intros Hi Hnth. unfold getitem.
  assert (Hlen : (Z.to_nat i < length l)%nat)
    by (apply nth_error_Some; congruence).
  destruct (Z.ltb_spec i 0) as [Hneg | _]; [lia |].
  destruct (Z.ltb_spec i 0) as [Hneg | _]; [lia |].
  destruct (Z.leb_spec (Z.of_nat (length l)) i) as [Hge | _]; [lia |].
  cbn. now rewrite Hnth.
Qed.

(** [l[-1]] is the last element of a non-empty list. *)
Lemma getitem_last {A} (l : list A) (a : A) :
  getitem (l ++ [a]) (-1) = Ok a.
Proof.
  unfold getitem. rewrite length_app. cbn [length].
  replace (-1 <? 0)%Z with true by reflexivity.
  set (n := Z.of_nat (length l + 1)).
  assert (Hn : (-1 + n = Z.of_nat (length l))%Z) by (subst n; lia).
  rewrite Hn.
  destruct (Z.ltb_spec (Z.of_nat (length l)) 0) as [Hneg | _]; [lia |].
  destruct (Z.leb_spec n (Z.of_nat (length l))) as [Hge | _]; [subst n; lia |].
  cbn. rewrite Nat2Z.id, nth_error_app2 by lia.
  now rewrite Nat.sub_diag.
Qed.

(** [l[-1]] raises [IndexError] exactly on the empty list. *)
Lemma getitem_last_empty {A} : getitem (@nil A) (-1) = Raise IndexError.
Proof. reflexivity. Qed.

Lemma getitem_map_range {A} (f : Z -> A) (lo hi i : Z) :
  (0 <= i < hi - lo)%Z ->
  getitem (map f (range lo hi)) i = Ok (f (lo + i)%Z).
Proof.
  intros Hi. apply getitem_in_range; [lia |].
  rewrite nth_error_map, range_nth_error by lia.
  cbn. do 2 f_equal. lia.
Qed.

(** The last element of a comprehension over a non-empty [range]. *)
Lemma getitem_last_map_range {A} (f : Z -> A) (lo hi : Z) :
  (lo < hi)%Z ->
  getitem (map f (range lo hi)) (-1) = Ok (f (hi - 1)%Z).
Proof.
  intros H. unfold range.
  replace (Z.to_nat (hi - lo)) with (Z.to_nat (hi - lo) - 1 + 1)%nat by lia.
  rewrite seq_app, !map_app. cbn [seq map].
  rewrite getitem_last. do 2 f_equal. lia.
Qed.

(** A comprehension none of whose elements raises is a [map]. *)
Lemma comprehension_map {A B} (f : A -> result B) (g : A -> B) (l : list A) :
  (forall a, In a l -> f a = Ok (g a)) ->
  comprehension f l = Ok (map g l).
Proof.
  induction l as [| a l IH]; intros Hf; [reflexivity |].
  cbn [comprehension map].
  rewrite (Hf a (or_introl eq_refl)). cbn [bind].
  rewrite IH by (intros b Hb; apply Hf; now right).
  reflexivity.
Qed.

(** A comprehension raises the exception of its first element if that
    element raises. *)
Lemma comprehension_raise_head {A B} (f : A -> result B) a l e :
  f a = Raise e -> comprehension f (a :: l) = Raise e.
Proof. intros H. cbn. now rewrite H. Qed.

Lemma comprehension_length {A B} (f : A -> result B) (l : list A) bs :
  comprehension f l = Ok bs -> length bs = length l.
Proof.
  revert bs. induction l as [| a l IH]; intros bs H; cbn in H.
  - now inversion H.
  - destruct (f a) as [b | e]; cbn in H; [| discriminate].
    destruct (comprehension f l) as [bs' | e]; cbn in H; [| discriminate].
    inversion H; subst. cbn. f_equal. now apply IH.
Qed.

Lemma combine_map_seq {A B} (f : nat -> A) (g : nat -> B) (s n : nat) :
  combine (map f (seq s n)) (map g (seq s n))
  = map (fun k => (f k, g k)) (seq s n).
Proof.
  revert s. induction n as [| n IH]; intros s; [reflexivity |].
  cbn. now rewrite IH.
Qed.

Lemma enumerate_map_range {A} (f : Z -> A) (lo hi : Z) :
  enumerate (map f (range lo hi))
  = map (fun k => (Z.of_nat k, f (lo + Z.of_nat k)%Z))
        (seq 0 (Z.to_nat (hi - lo))).
Proof.
  unfold enumerate. rewrite length_map, range_length.
  unfold range. rewrite Z.sub_0_r, Nat2Z.id, map_map.
  now rewrite combine_map_seq.
Qed.

(** ** Float arithmetic *)

Lemma fdiv_nonzero (x : pyfloat) (d : Q) :
  ~ d == 0 -> fdiv x (num d) = Ok (quotient x d).
Proof.
  intros Hd. unfold fdiv, num.
  destruct (Qeq_bool d 0) eqn:E; [| reflexivity].
  apply Qeq_bool_iff in E. contradiction.
Qed.

Lemma fdiv_zero (x : pyfloat) (d : Q) :
  d == 0 -> fdiv x (num d) = Raise ZeroDivisionError.
Proof.
  intros Hd. unfold fdiv, num.
  apply Qeq_bool_iff in Hd. now rewrite Hd.
Qed.

Lemma feq_refl (x : pyfloat) : feq x x.
Proof. destruct x; cbn; [reflexivity | exact I]. Qed.

Lemma feq_sym (x y : pyfloat) : feq x y -> feq y x.
Proof. destruct x, y; cbn; auto. intros H. now symmetry. Qed.

Lemma feq_trans (x y z : pyfloat) : feq x y -> feq y z -> feq x z.
Proof.
  destruct x, y, z; cbn; auto; try contradiction.
  intros H1 H2. now rewrite H1.
Qed.

Lemma Qpower_succ_nonzero (a : Q) (j : Z) :
  ~ a == 0 -> ~ a ^ j == 0.
Proof. intros Ha. now apply Qpower_not_0. Qed.


(** ** The per-year valuation *)

Section YearValuationFacts.

Variables (r g : Q) (N : Z).

Lemma projected_fcffs_length (x : pyfloat) :
  length (projected_fcffs g N x) = Z.to_nat N.
Proof.
  unfold projected_fcffs. rewrite length_map, range_length.
  f_equal. lia.
Qed.

Lemma discount_factors_length :
  length (discount_factors r N) = Z.to_nat N.
Proof.
  unfold discount_factors. rewrite length_map, range_length.
  f_equal. lia.
Qed.


Lemma discount_factors_getitem (j : Z) :
  (0 <= j < N)%Z ->
  getitem (discount_factors r N) j = Ok ((1 + r) ^ (j + 1)).
Proof.
  intros Hj. unfold discount_factors.
  rewrite getitem_map_range by lia.
  now rewrite Z.add_comm.
Qed.

Lemma projected_fcffs_last (x : pyfloat) :
  (1 <= N)%Z ->
  getitem (projected_fcffs g N x) (-1)
  = Ok (fmul x (num ((1 + g) ^ N))).
Proof.
  intros HN. unfold projected_fcffs.
  rewrite getitem_last_map_range by lia.
  now replace (N + 1 - 1)%Z with N by lia.
Qed.

Lemma discount_factors_last :
  (1 <= N)%Z -> getitem (discount_factors r N) (-1) = Ok ((1 + r) ^ N).
Proof.
  intros HN. unfold discount_factors.
  rewrite getitem_last_map_range by lia.
  now replace (N + 1 - 1)%Z with N by lia.
Qed.

Lemma projected_fcffs_nonpositive (x : pyfloat) :
  (N <= 0)%Z -> projected_fcffs g N x = [].
Proof.
  intros HN. unfold projected_fcffs. now rewrite range_empty by lia.
Qed.

Lemma discounted_fcffs_ok (x : pyfloat) :
  ~ 1 + r == 0 ->
  discounted_fcffs (projected_fcffs g N x) (discount_factors r N)
  = Ok (discounted_closed r g N x).
Proof.
  intros Hr. unfold discounted_fcffs, projected_fcffs.
  rewrite enumerate_map_range.
  replace (Z.to_nat (N + 1 - 1)) with (Z.to_nat N) by (f_equal; lia).
  rewrite (comprehension_map _
    (fun kf : Z * pyfloat =>
       quotient (snd kf) ((1 + r) ^ (fst kf + 1)))).
  - unfold discounted_closed. rewrite map_map. cbn [fst snd].
    f_equal. apply map_ext. intros k.
    now rewrite (Z.add_comm 1 (Z.of_nat k)).
  - intros [j f] Hin. apply in_map_iff in Hin.
    destruct Hin as [k [Hk Hin]]. inversion Hk; subst; clear Hk.
    apply in_seq in Hin. cbn [fst snd].
    rewrite discount_factors_getitem by lia. cbn [bind].
    apply fdiv_nonzero. now apply Qpower_not_0.
Qed.

(** With a discount rate of exactly -1 every factor is zero, and the
    first division of the first year raises. *)
Lemma discounted_fcffs_zero_factor (x : pyfloat) :
  1 + r == 0 -> (1 <= N)%Z ->
  discounted_fcffs (projected_fcffs g N x) (discount_factors r N)
  = Raise ZeroDivisionError.
Proof.
  intros Hr HN. unfold discounted_fcffs, projected_fcffs.
  rewrite enumerate_map_range.
  replace (Z.to_nat (N + 1 - 1)) with (S (Z.to_nat (N - 1))) by lia.
  cbn [seq map]. apply comprehension_raise_head. cbn [fst snd].
  rewrite discount_factors_getitem by lia. cbn [bind].
  apply fdiv_zero. rewrite Hr. now apply Qpower_0.
Qed.

Lemma terminal_value_ok (x : pyfloat) :
  (1 <= N)%Z -> ~ r == g ->
  terminal_value r g (projected_fcffs g N x)
  = Ok (quotient (fmul (fmul x (num ((1 + g) ^ N))) (num (1 + g)))
                 (r - g)).
Proof.
  intros HN Hrg. unfold terminal_value.
  rewrite projected_fcffs_last by assumption. cbn [bind].
  apply fdiv_nonzero. intros H. apply Hrg. lra.
Qed.

Lemma terminal_value_equal_rates (x : pyfloat) :
  (1 <= N)%Z -> r == g ->
  terminal_value r g (projected_fcffs g N x) = Raise ZeroDivisionError.
Proof.
  intros HN Hrg. unfold terminal_value.
  rewrite projected_fcffs_last by assumption. cbn [bind].
  apply fdiv_zero. lra.
Qed.

Lemma terminal_value_no_horizon (x : pyfloat) :
  (N <= 0)%Z ->
  terminal_value r g (projected_fcffs g N x) = Raise IndexError.
Proof.
  intros HN. now rewrite projected_fcffs_nonpositive by assumption.
Qed.

Lemma terminal_value_pv_ok (tv : pyfloat) :
  (1 <= N)%Z -> ~ 1 + r == 0 ->
  terminal_value_pv tv (discount_factors r N)
  = Ok (quotient tv ((1 + r) ^ N)).
Proof.
  intros HN Hr. unfold terminal_value_pv.
  rewrite discount_factors_last by assumption. cbn [bind].
  apply fdiv_nonzero. now apply Qpower_not_0.
Qed.

End YearValuationFacts.

Section YearValuationSpec.

Variables (r g : Q) (N : Z).

Lemma config_error_none :
  config_error r g N = None <->
  (1 <= N)%Z /\ ~ 1 + r == 0 /\ ~ r == g.
Proof.
  unfold config_error.
  destruct (Z.leb_spec N 0) as [HN | HN].
  { split; [discriminate | intros [H _]; lia]. }
  destruct (Qeq_bool (1 + r) 0) eqn:E1.
  { apply Qeq_bool_iff in E1. split; [discriminate | tauto]. }
  destruct (Qeq_bool r g) eqn:E2.
  { apply Qeq_bool_iff in E2. split; [discriminate | tauto]. }
  split; [intros _ | reflexivity].
  repeat split; [lia | |]; intros H; apply Qeq_bool_iff in H; congruence.
Qed.

Lemma discounted_fcffs_nil (factors : list Q) :
  discounted_fcffs [] factors = Ok [].
Proof. reflexivity. Qed.

(** What an iteration does, for every float and every configuration:
    it raises the exception that the configuration determines, or it
    returns the valuation in closed form. *)
Lemma value_year_spec (x : pyfloat) :
  value_year r g N x
  = match config_error r g N with
    | Some e => Raise e
    | None => Ok (design_year r g N x)
    end.
Proof.
  unfold value_year, config_error.
  destruct (Z.leb_spec N 0) as [HN | HN].
  { rewrite projected_fcffs_nonpositive by assumption.
    rewrite discounted_fcffs_nil. reflexivity. }
  destruct (Qeq_bool (1 + r) 0) eqn:E1.
  { apply Qeq_bool_iff in E1.
    rewrite discounted_fcffs_zero_factor by (assumption || lia).
    reflexivity. }
  assert (Hr : ~ 1 + r == 0)
    by (intros H; apply Qeq_bool_iff in H; congruence).
  rewrite discounted_fcffs_ok by assumption. cbn [bind].
  destruct (Qeq_bool r g) eqn:E2.
  { apply Qeq_bool_iff in E2.
    rewrite terminal_value_equal_rates by (assumption || lia).
    reflexivity. }
  assert (Hrg : ~ r == g)
    by (intros H; apply Qeq_bool_iff in H; congruence).
  rewrite terminal_value_ok by (assumption || lia). cbn [bind].
  rewrite terminal_value_pv_ok by (assumption || lia). cbn [bind].
  reflexivity.
Qed.


End YearValuationSpec.

(** ** The loop and the output table *)

Lemma in_millions_ok (l : list pyfloat) :
  in_millions l = Ok (map millions l).
Proof.
  unfold in_millions. apply comprehension_map.
  intros x _. apply fdiv_nonzero. discriminate.
Qed.

Lemma getitem_middle {A} (done todo : list A) (a : A) :
  getitem (done ++ a :: todo) (Z.of_nat (length done)) = Ok a.
Proof.
  apply getitem_in_range; [lia |].
  rewrite Nat2Z.id, nth_error_app2 by lia.
  now rewrite Nat.sub_diag.
Qed.

Lemma getitem_defined {A} (l : list A) (k : nat) :
  (k < length l)%nat -> exists a, getitem l (Z.of_nat k) = Ok a.
Proof.
  intros Hk. destruct (nth_error l k) as [a |] eqn:E.
  - exists a. apply getitem_in_range; [lia | now rewrite Nat2Z.id].
  - apply nth_error_None in E. lia.
Qed.

Section LoopFacts.

Variables (ys : list Z) (fs : list pyfloat).
Variables (r g : Q) (N : Z).
Hypothesis same_length : length ys = length fs.

(** Invariant of the loop: after the years in [done], the two
    accumulators hold one entry per year of [done]; running the
    remaining indices appends one entry per year of [todo]. *)
Lemma for_each_loop_body (todo done : list pyfloat) (st : loop_state) :
  config_error r g N = None ->
  fs = done ++ todo ->
  for_each (loop_body ys fs r g N)
    (range (Z.of_nat (length done)) (Z.of_nat (length fs))) st
  = Ok {| terminal_values := terminal_values st ++ map (fun x => design_terminal_value_pv r g N
                                  (design_last_projected g N x)) todo;
          net_present_values := net_present_values st ++ map (design_npv r g N) todo |}.
Proof.
  intros Hcfg. revert done st.
  induction todo as [| a todo IH]; intros done st Hfs.
  - rewrite app_nil_r in Hfs. subst done.
    rewrite range_empty by lia. cbn. rewrite !app_nil_r.
    now destruct st.
  - rewrite range_succ by (rewrite Hfs, length_app; cbn; lia).
    cbn [for_each]. unfold loop_body at 1.
    rewrite Hfs at 1. rewrite getitem_middle. cbn [bind].
    destruct (getitem_defined ys (length done)) as [y Hy].
    { rewrite same_length, Hfs, length_app. cbn. lia. }
    rewrite Hy. cbn [bind].
    rewrite value_year_spec, Hcfg. cbn [bind design_year
      yv_terminal_value_pv yv_net_present_value].
    replace (Z.of_nat (length done) + 1)%Z
      with (Z.of_nat (length (done ++ [a])))
      by (rewrite length_app; cbn; lia).
    rewrite (IH (done ++ [a])) by (now rewrite <- app_assoc).
    cbn [terminal_values net_present_values map].
    now rewrite <- !app_assoc.
Qed.

Lemma dcf_loop_valid :
  config_error r g N = None ->
  dcf_loop ys fs r g N
  = Ok {| terminal_values := map (fun x => design_terminal_value_pv r g N
                               (design_last_projected g N x)) fs;
          net_present_values := map (design_npv r g N) fs |}.
Proof.
  intros Hcfg. unfold dcf_loop.
  now rewrite (for_each_loop_body fs [] _ Hcfg eq_refl).
Qed.

End LoopFacts.

(** With a configuration that makes an iteration raise, the very first
    iteration raises, whatever the records are. *)
Lemma dcf_loop_invalid (ys : list Z) (fs : list pyfloat) r g N e :
  length ys = length fs ->
  config_error r g N = Some e -> fs <> [] ->
  dcf_loop ys fs r g N = Raise e.
Proof.
  intros Hlen Hcfg Hne. unfold dcf_loop.
  destruct fs as [| a fs']; [congruence |].
  destruct ys as [| y ys']; [discriminate |].
  rewrite range_succ by (cbn [length]; lia).
  cbn [for_each]. unfold loop_body at 1.
  change (getitem (a :: fs') 0) with (Ok a). cbn [bind].
  change (getitem (y :: ys') 0) with (Ok y). cbn [bind].
  now rewrite value_year_spec, Hcfg.
Qed.

Lemma dcf_loop_empty (ys : list Z) r g N :
  dcf_loop ys [] r g N
  = Ok {| terminal_values := []; net_present_values := [] |}.
Proof. reflexivity. Qed.

(** The whole of the loop and the table, for every configuration. *)
Lemma dcf_table_spec (ys : list Z) (fs : list pyfloat) r g N :
  length ys = length fs ->
  dcf_table ys fs r g N
  = match config_error r g N, fs with
    | Some e, _ :: _ => Raise e
    | _, _ =>
        Ok {| col_year := ys;
              col_fcff_millions := map millions fs;
              col_terminal_value_millions :=
                map millions
                  (map (fun x => design_terminal_value_pv r g N
                                   (design_last_projected g N x)) fs);
              col_npv_millions :=
                map millions (map (design_npv r g N) fs) |}
    end.
Proof.
  intros Hlen. unfold dcf_table.
  destruct (config_error r g N) as [e |] eqn:Hcfg.
  - destruct fs as [| a fs'].
    + rewrite dcf_loop_empty. reflexivity.
    + rewrite (dcf_loop_invalid _ _ _ _ _ e Hlen Hcfg) by discriminate.
      reflexivity.
  - rewrite (dcf_loop_valid _ _ _ _ _ Hlen Hcfg). cbn [bind].
    rewrite !in_millions_ok. reflexivity.
Qed.

(* ================================================================== *)
(** * The claims *)

(** ** Projection *)



(** ** Discounting *)




(** ** Terminal value *)



(** C9.  For every per-year valuation with horizon [N >= 1], the
    projected series and the list of discount factors both have length
    [N], so both are non-empty, the two accesses [[-1]] of the
    terminal-value step are in bounds, and neither that step nor the
    iteration as a whole can raise [IndexError]. *)
Theorem C9_last_element_accesses_in_bounds (x : pyfloat) (g r : Q) (N : Z) :
  (1 <= N)%Z ->
  Z.of_nat (length (projected_fcffs g N x)) = N /\
  Z.of_nat (length (discount_factors r N)) = N /\
  projected_fcffs g N x <> [] /\
  discount_factors r N <> [] /\
  (exists a, getitem (projected_fcffs g N x) (-1) = Ok a) /\
  (exists d, getitem (discount_factors r N) (-1) = Ok d) /\
  terminal_value r g (projected_fcffs g N x) <> Raise IndexError /\
  (forall tv, terminal_value_pv tv (discount_factors r N) <> Raise IndexError) /\
  value_year r g N x <> Raise IndexError.
Proof.
  intros HN.
  assert (Hp : Z.of_nat (length (projected_fcffs g N x)) = N)
    by (rewrite projected_fcffs_length; lia).
  assert (Hd : Z.of_nat (length (discount_factors r N)) = N)
    by (rewrite discount_factors_length; lia).
  repeat split; try assumption.
  - intros E. rewrite E in Hp. cbn in Hp. lia.
  - intros E. rewrite E in Hd. cbn in Hd. lia.
  - eexists. now apply projected_fcffs_last.
  - eexists. now apply discount_factors_last.
  - unfold terminal_value. rewrite projected_fcffs_last by assumption.
    cbn [bind]. unfold fdiv, num.
    destruct (Qeq_bool (r - g) 0); discriminate.
  - intros tv. unfold terminal_value_pv.
    rewrite discount_factors_last by assumption.
    cbn [bind]. unfold fdiv, num.
    destruct (Qeq_bool ((1 + r) ^ N) 0); discriminate.
  - rewrite value_year_spec. unfold config_error.
    destruct (Z.leb_spec N 0) as [Hle | _]; [lia |].
    destruct (Qeq_bool (1 + r) 0); [discriminate |].
    destruct (Qeq_bool r g); discriminate.
Qed.

Lemma C9_last_element_accesses_in_bounds_witness :
  value_year (1 # 10) (1 # 50) 20 (num 100) <> Raise IndexError.
Proof.
  apply (C9_last_element_accesses_in_bounds (num 100) (1 # 50) (1 # 10) 20).
  lia.
Defined.

(** ** The worked example *)

(** C8.  For the single historical input [fcff = 100] with [r = 0.10],
    [g = 0.02] and [N = 1], the iteration yields the projected series
    [[102]], the discounted series [[102 / 1.10]], the terminal value
    [102 * 1.02 / 0.08 = 1300.5], its present value [1300.5 / 1.10],
    and a net present value within [1e-2] of [1275.0] (exactly [1275]
    in rational arithmetic). *)
Theorem C8_worked_example :
  exists v npv,
    value_year (1 # 10) (1 # 50) 1 (num 100) = Ok v /\
    Forall2 feq (yv_projected v) [num 102] /\
    Forall2 feq (yv_discounted v) [num (102 / (11 # 10))] /\
    feq (yv_terminal_value v) (num (102 * (102 # 100) / (8 # 100))) /\
    feq (yv_terminal_value v) (num (13005 # 10)) /\
    feq (yv_terminal_value_pv v) (num ((13005 # 10) / (11 # 10))) /\
    yv_net_present_value v = num npv /\
    Qabs (npv - 1275) <= 1 # 100 /\
    npv == 1275.
Proof.
  eexists. eexists.
  split; [vm_compute; reflexivity |].
  cbn [yv_projected yv_discounted yv_terminal_value yv_terminal_value_pv
       yv_net_present_value].
  repeat split.
  - repeat constructor.
  - repeat constructor.
  - vm_compute. discriminate.
Qed.

(** ** The aggregator *)

Lemma table_rows_map {A} (ys : A -> Z) (f tv npv : A -> pyfloat) (l : list A) :
  table_rows (map ys l) (map f l) (map tv l) (map npv l)
  = map (fun a => {| vr_year := ys a; vr_fcff := f a;
                     vr_terminal_value_pv := tv a; vr_npv := npv a |}) l.
Proof.
  induction l as [| a l IH]; [reflexivity |].
  cbn. now rewrite IH.
Qed.

(** A run that returns a table returns the table in closed form, and
    it does so exactly when the configuration is one that raises
    nothing or when there is no record to value. *)
Lemma dcf_table_ok_inv (records : list (Z * pyfloat)) (r g : Q) (N : Z) t :
  dcf_table (map fst records) (map snd records) r g N = Ok t ->
  (config_error r g N = None \/ records = []) /\
  t = {| col_year := map fst records;
         col_fcff_millions := map millions (map snd records);
         col_terminal_value_millions :=
           map millions
             (map (fun x => design_terminal_value_pv r g N
                              (design_last_projected g N x))
                  (map snd records));
         col_npv_millions :=
           map millions (map (design_npv r g N) (map snd records)) |}.
Proof.
  rewrite dcf_table_spec by now rewrite !length_map.
  destruct (config_error r g N) as [e |].
  - destruct records as [| rec records]; cbn [map]; [| discriminate].
    intros H. inversion H. split; [now right | reflexivity].
  - intros H. inversion H. split; [now left | reflexivity].
Qed.



(** ** Independence of the years *)

(** C10.  For every two collections of historical FCFF records that
    agree at index [i] and the same rates and horizon, the two runs
    either both raise the same exception or both finish, and then the
    terminal-value present value and the NPV stored for index [i] are
    the same in both: they are the result of valuing that year's FCFF
    alone under the run-wide parameters. *)
Theorem C10_year_depends_on_its_own_fcff
    (records1 records2 : list (Z * pyfloat)) (r g : Q) (N : Z)
    (i : nat) (x : pyfloat) :
  nth_error (map snd records1) i = Some x ->
  nth_error (map snd records2) i = Some x ->
  match dcf_loop (map fst records1) (map snd records1) r g N,
        dcf_loop (map fst records2) (map snd records2) r g N with
  | Ok st1, Ok st2 =>
      nth_error (terminal_values st1) i = nth_error (terminal_values st2) i /\
      nth_error (net_present_values st1) i
      = nth_error (net_present_values st2) i /\
      exists v,
        value_year r g N x = Ok v /\
        nth_error (terminal_values st1) i = Some (yv_terminal_value_pv v) /\
        nth_error (net_present_values st1) i = Some (yv_net_present_value v)
  | Raise e1, Raise e2 => e1 = e2
  | _, _ => False
  end.
Proof.
  intros H1 H2.
  assert (Hne1 : map snd records1 <> [])
    by (intros E; rewrite E in H1; destruct i; discriminate).
  assert (Hne2 : map snd records2 <> [])
    by (intros E; rewrite E in H2; destruct i; discriminate).
  destruct (config_error r g N) as [e |] eqn:Hcfg.
  - rewrite (dcf_loop_invalid _ _ r g N e) by (now rewrite ?length_map).
    rewrite (dcf_loop_invalid _ _ r g N e) by (now rewrite ?length_map).
    reflexivity.
  - rewrite !dcf_loop_valid by (now rewrite ?length_map).
    cbn [terminal_values net_present_values].
    set (fs1 := map snd records1) in *. set (fs2 := map snd records2) in *.
    rewrite !nth_error_map, H1, H2. cbn [option_map].
    repeat split.
    exists (design_year r g N x). repeat split.
    now rewrite value_year_spec, Hcfg.
Qed.

Lemma C10_year_depends_on_its_own_fcff_witness :
  match dcf_loop [2021%Z; 2020%Z] [num 7; num 100] (1 # 10) (1 # 50) 1,
        dcf_loop [1999%Z; 2020%Z; 2001%Z] [nan; num 100; num 3]
                 (1 # 10) (1 # 50) 1 with
  | Ok st1, Ok st2 =>
      nth_error (terminal_values st1) 1 = nth_error (terminal_values st2) 1 /\
      nth_error (net_present_values st1) 1
      = nth_error (net_present_values st2) 1 /\
      exists v,
        value_year (1 # 10) (1 # 50) 1 (num 100) = Ok v /\
        nth_error (terminal_values st1) 1 = Some (yv_terminal_value_pv v) /\
        nth_error (net_present_values st1) 1 = Some (yv_net_present_value v)
  | Raise e1, Raise e2 => e1 = e2
  | _, _ => False
  end.
Proof.
  exact (C10_year_depends_on_its_own_fcff
           [(2021%Z, num 7); (2020%Z, num 100)]
           [(1999%Z, nan); (2020%Z, num 100); (2001%Z, num 3)]
           (1 # 10) (1 # 50) 1 1 (num 100) eq_refl eq_refl).
Defined.

(** ** Invalid rate configurations *)

(** A discount rate below -1 is not rejected: every discount factor is
    a non-zero number and the run finishes. *)
Lemma rate_below_minus_one_accepted (records : list (Z * pyfloat)) r g N :
  r < -1 -> ~ r == g -> (1 <= N)%Z ->
  exists t, dcf_table (map fst records) (map snd records) r g N = Ok t.
Proof.
  intros Hr Hrg HN.
  assert (Hcfg : config_error r g N = None).
  { apply config_error_none. repeat split; auto. intros H. lra. }
  eexists. rewrite dcf_table_spec by now rewrite !length_map.
  rewrite Hcfg. reflexivity.
Qed.




(** ** What the resolver and the FCFF assignment do guarantee *)

(** No candidate label among the columns: no label is chosen and the
    default Series is returned. *)
Lemma resolver_no_candidate_column (df : Pandas.DataFrame) (labels : list string) :
  (forall l, In l labels -> Pandas.has_column df l = false) ->
  get_financial_value df labels
  = {| max_abs_value := Pandas.constant_series (num 0) (Pandas.len df);
       found_label := None |}.
Proof.
  unfold get_financial_value.
  generalize {| max_abs_value := Pandas.constant_series (num 0) (Pandas.len df);
                found_label := None |}.
  induction labels as [| l labels IH]; intros st Hno; [reflexivity |].
  cbn [fold_left]. unfold resolver_step at 2.
  rewrite (Hno l (or_introl eq_refl)).
  apply IH. intros l' Hl'. apply Hno. now right.
Qed.

Lemma combine_range_repeat_fst {A} (v : A) (ls : list Z) :
  map fst (combine ls (repeat v (length ls))) = ls.
Proof. induction ls as [| l ls IH]; [reflexivity |]. cbn. now rewrite IH. Qed.

Lemma combine_range_repeat_snd {A} (v : A) (ls : list Z) :
  map snd (combine ls (repeat v (length ls))) = repeat v (length ls).
Proof. induction ls as [| l ls IH]; [reflexivity |]. cbn. now rewrite IH. Qed.

Lemma range_0_length (n : nat) : length (range 0 (Z.of_nat n)) = n.
Proof. rewrite range_length. lia. Qed.

(** The default Series holds one zero per period, under the positional
    index. *)
Lemma constant_series_index {v : pyfloat} (n : nat) :
  map fst (Pandas.constant_series v n) = range 0 (Z.of_nat n).
Proof.
  unfold Pandas.constant_series.
  rewrite <- (range_0_length n) at 2. apply combine_range_repeat_fst.
Qed.

Lemma constant_series_values (v : pyfloat) (n : nat) :
  Pandas.tolist (Pandas.constant_series v n) = repeat v n.
Proof.
  unfold Pandas.tolist, Pandas.constant_series.
  rewrite <- (range_0_length n) at 2.
  now rewrite combine_range_repeat_snd, range_0_length.
Qed.

(** The index of the resolved Series: the positional one of the default
    or the one of the frame. *)
Lemma resolver_index (df : Pandas.DataFrame) (labels : list string) :
  let s := max_abs_value (get_financial_value df labels) in
  map fst s = range 0 (Z.of_nat (Pandas.len df)) \/
  map fst s = map Pandas.row_label (Pandas.rows df).
Proof.
  cbn zeta. unfold get_financial_value.
  set (st0 := {| max_abs_value := Pandas.constant_series (num 0) (Pandas.len df);
                 found_label := None |}).
  assert (H0 : map fst (max_abs_value st0) = range 0 (Z.of_nat (Pandas.len df)) \/
               map fst (max_abs_value st0) = map Pandas.row_label (Pandas.rows df))
    by (left; apply constant_series_index).
  revert H0. generalize st0. clear st0.
  induction labels as [| l labels IH]; intros st Hst; [exact Hst |].
  cbn [fold_left]. apply IH.
  unfold resolver_step.
  destruct (Pandas.has_column df l); [| exact Hst].
  destruct (Qgt_bool _ _); [| exact Hst].
  right. cbn [max_abs_value].
  unfold Pandas.fillna0, Pandas.column. rewrite !map_map. reflexivity.
Qed.

Lemma lookup_in (s : Pandas.Series) (l : Z) :
  In l (map fst s) -> exists v, Pandas.lookup s l = Some v /\ In (l, v) s.
Proof.
  induction s as [| [l' v'] s IH]; intros Hin; [contradiction |].
  cbn [Pandas.lookup]. destruct (Z.eqb_spec l l') as [-> | Hne].
  - exists v'. split; [reflexivity | now left].
  - destruct Hin as [Heq | Hin]; [cbn in Heq; congruence |].
    destruct (IH Hin) as (v & Hv & Hinv). exists v. split; [exact Hv | now right].
Qed.

Lemma lookup_nodup (s : Pandas.Series) (l : Z) (v : pyfloat) :
  NoDup (map fst s) -> In (l, v) s -> Pandas.lookup s l = Some v.
Proof.
  induction s as [| [l' v'] s IH]; intros Hnd Hin; [contradiction |].
  cbn [map fst] in Hnd. inversion Hnd as [| ? ? Hnotin Hnd']; subst.
  cbn [Pandas.lookup]. destruct (Z.eqb_spec l l') as [-> | Hne].
  - destruct Hin as [Heq | Hin]; [congruence |].
    exfalso. apply Hnotin. apply in_map_iff. now exists (l', v).
  - destruct Hin as [Heq | Hin]; [congruence |]. now apply IH.
Qed.

Lemma lookup_labelled (F : Z -> pyfloat) (ls : list Z) (l : Z) :
  In l ls -> Pandas.lookup (map (fun l => (l, F l)) ls) l = Some (F l).
Proof.
  induction ls as [| l' ls IH]; intros Hin; [contradiction |].
  cbn [map Pandas.lookup]. destruct (Z.eqb_spec l l') as [-> | Hne];
    [reflexivity |].
  destruct Hin as [Heq | Hin]; [congruence |]. now apply IH.
Qed.

Lemma fsub_zero (v : pyfloat) : feq (fsub v (num 0)) v.
Proof. destruct v as [q |]; cbn; [ring | exact I]. Qed.

(** Subtracting an all-zero Series that carries the same labels gives
    back, label by label, the values of the first operand. *)
Lemma sub_zero_same_index (a b : Pandas.Series) (l : Z) (v : pyfloat) :
  NoDup (map fst a) ->
  map fst b = map fst a ->
  (forall l' w, In (l', w) b -> w = num 0) ->
  In (l, v) a ->
  exists w, Pandas.lookup (Pandas.sub a b) l = Some w /\ feq w v.
Proof.
  intros Hnd Hidx Hzero Hin.
  assert (Hl : In l (map fst a)) by (apply in_map_iff; now exists (l, v)).
  unfold Pandas.sub. rewrite lookup_labelled by (apply in_or_app; now left).
  rewrite (lookup_nodup a l v Hnd Hin).
  destruct (lookup_in b l) as (w & Hw & Hinw); [now rewrite Hidx |].
  rewrite Hw, (Hzero l w Hinw).
  eexists. split; [reflexivity | apply fsub_zero].
Qed.

Lemma assigned_column_aligned (s a : Pandas.Series) (rs : list Pandas.Row) :
  map Pandas.row_label rs = map fst a ->
  (forall l v, In (l, v) a -> exists w, Pandas.lookup s l = Some w /\ feq w v) ->
  Forall2 feq
    (map (fun r => match Pandas.lookup s (Pandas.row_label r) with
                   | Some v => v
                   | None => nan
                   end) rs)
    (map snd a).
Proof.
  revert a. induction rs as [| r rs IH]; intros [| [l v] a] Hidx Hs;
    try discriminate; [constructor |].
  cbn [map fst snd] in *. inversion Hidx as [[Hl Hrest]].
  constructor.
  - destruct (Hs l v (or_introl eq_refl)) as (w & Hw & Hwv).
    now rewrite Hl, Hw.
  - apply IH; [exact Hrest |]. intros l' v' Hin. apply Hs. now right.
Qed.

Lemma range_NoDup (lo hi : Z) : NoDup (range lo hi).
Proof.
  unfold range. generalize (seq_NoDup (Z.to_nat (hi - lo)) 0).
  generalize (seq 0 (Z.to_nat (hi - lo))).
  induction l as [| k l IH]; intros Hnd; cbn [map]; [constructor |].
  inversion Hnd as [| ? ? Hnotin Hnd']; subst. constructor.
  - intros Hin. apply in_map_iff in Hin. destruct Hin as (k' & Heq & Hin).
    assert (k' = k) by lia. subst k'. contradiction.
  - now apply IH.
Qed.

Lemma constant_series_in (v : pyfloat) (n : nat) (l : Z) (w : pyfloat) :
  In (l, w) (Pandas.constant_series v n) -> w = v.
Proof.
  unfold Pandas.constant_series. intros Hin.
  apply in_combine_r in Hin. now apply repeat_spec in Hin.
Qed.

(** When the frame carries the positional index [0 .. n-1] and no capex
    candidate is among its columns, the FCFF of every period is the
    resolved cfo of that period. *)
Lemma fcff_is_cfo_on_positional_index
    (df : Pandas.DataFrame) (cfo_labels capex_labels : list string) :
  map Pandas.row_label (Pandas.rows df) = range 0 (Z.of_nat (Pandas.len df)) ->
  (forall l, In l capex_labels -> Pandas.has_column df l = false) ->
  Forall2 feq
    (fcff_column df cfo_labels capex_labels)
    (Pandas.tolist (max_abs_value (get_financial_value df cfo_labels))).
Proof.
  intros Hpos Hno. unfold fcff_column, Pandas.assigned_column, Pandas.tolist.
  rewrite (resolver_no_candidate_column df capex_labels Hno).
  cbn [max_abs_value].
  set (cfo := max_abs_value (get_financial_value df cfo_labels)).
  assert (Hcfo : map fst cfo = range 0 (Z.of_nat (Pandas.len df))).
  { destruct (resolver_index df cfo_labels) as [H | H]; fold cfo in H;
      [exact H | now rewrite H]. }
  apply assigned_column_aligned; [now rewrite Hcfo |].
  intros l v Hin. apply sub_zero_same_index; try assumption.
  - rewrite Hcfo. apply range_NoDup.
  - now rewrite constant_series_index, Hcfo.
  - intros l' w Hw. now apply constant_series_in in Hw.
Qed.


Lemma Qgt_bool_true (a b : Q) : Qgt_bool a b = true <-> b < a.
Proof.
  unfold Qgt_bool. destruct (Qle_bool a b) eqn:E; cbn.
  - apply Qle_bool_iff in E. split; [discriminate | intros H; lra].
  - split; [intros _ | reflexivity].
    apply Qnot_le_lt. intros H. apply Qle_bool_iff in H. congruence.
Qed.

Lemma Qgt_bool_false (a b : Q) : Qgt_bool a b = false <-> a <= b.
Proof.
  unfold Qgt_bool. destruct (Qle_bool a b) eqn:E; cbn.
  - apply Qle_bool_iff in E. tauto.
  - split; [discriminate |]. intros H. apply Qle_bool_iff in H. congruence.
Qed.


Lemma sum_combine_zeros (ls : list Z) (n : nat) :
  Pandas.sum (combine ls (repeat (num 0) n)) == 0.
Proof.
  revert ls. induction n as [| n IH]; intros ls; [now destruct ls |].
  destruct ls as [| l ls]; [reflexivity |].
  cbn [repeat combine Pandas.sum fold_right snd num].
  specialize (IH ls). unfold Pandas.sum in IH. rewrite IH. ring.
Qed.

Lemma sum_constant_series_zero (n : nat) :
  Pandas.sum (Pandas.constant_series (num 0) n) == 0.
Proof. apply sum_combine_zeros. Qed.


(* ================================================================== *)
(** * Further properties of the valuation *)

(** ** A horizon that is not positive *)

Lemma config_error_index (r g : Q) (N : Z) :
  config_error r g N = Some IndexError <-> (N <= 0)%Z.
Proof.
  unfold config_error. destruct (Z.leb_spec N 0) as [H | H].
  - tauto.
  - destruct (Qeq_bool (1 + r) 0); [| destruct (Qeq_bool r g)];
      (split; [discriminate | lia]).
Qed.

(** X3.  The run raises [IndexError] exactly when there is at least
    one record and the horizon is not positive: with [N <= 0] the
    projected series is empty, no float is computed, and
    [projected_fcffs[-1]] fails in the first iteration whatever the
    rates are; with a positive horizon, or without records, no
    [IndexError] is ever raised. *)
Theorem non_positive_horizon_raises_index_error
    (records : list (Z * pyfloat)) (r g : Q) (N : Z) :
  (dcf_loop (map fst records) (map snd records) r g N = Raise IndexError
   <-> records <> [] /\ (N <= 0)%Z) /\
  (dcf_table (map fst records) (map snd records) r g N = Raise IndexError
   <-> records <> [] /\ (N <= 0)%Z).
Proof.
  assert (Hloop :
    dcf_loop (map fst records) (map snd records) r g N = Raise IndexError
    <-> records <> [] /\ (N <= 0)%Z).
  { pose proof (config_error_index r g N) as HI.
    destruct records as [| rec records].
    - cbn [map]. rewrite dcf_loop_empty.
      split; [discriminate | intros [Hne _]; congruence].
    - destruct (config_error r g N) as [e |] eqn:Hcfg.
      + rewrite (dcf_loop_invalid _ _ r g N e)
          by (try exact Hcfg; try discriminate; now rewrite !length_map).
        split.
        * intros E. inversion E. subst e. split; [discriminate | now apply HI].
        * intros [_ HN0]. apply HI in HN0. congruence.
      + rewrite (dcf_loop_valid _ _ r g N)
          by (try exact Hcfg; now rewrite !length_map).
        split; [discriminate |].
        intros [_ HN0]. apply HI in HN0. discriminate. }
  split; [exact Hloop |].
  unfold dcf_table.
  destruct (dcf_loop (map fst records) (map snd records) r g N) as [st | e] eqn:E.
  - cbn [bind]. rewrite !in_millions_ok. cbn [bind].
    split; [discriminate |].
    intros H. apply Hloop in H. discriminate.
  - cbn [bind]. split.
    + intros H. inversion H. subst e. now apply Hloop.
    + intros H. apply Hloop in H. inversion H. reflexivity.
Qed.

(** X4.  A frame without rows is valued to the empty table under every
    configuration: invalid rates and a non-positive horizon go
    unnoticed when there is no year to value. *)
Theorem empty_frame_gives_empty_table
    (apple_df : Pandas.DataFrame) (r g : Q) (N : Z) :
  Pandas.rows apple_df = [] ->
  dcf_analysis apple_df r g N
  = Ok {| col_year := []; col_fcff_millions := [];
          col_terminal_value_millions := []; col_npv_millions := [] |}.
Proof.
  intros Hrows. unfold dcf_analysis, fcff_column, Pandas.assigned_column.
  rewrite Hrows. reflexivity.
Qed.

Lemma empty_frame_gives_empty_table_witness :
  dcf_analysis {| Pandas.columns := [cfo_label; capex_label];
                  Pandas.rows := [] |} (1 # 10) (1 # 10) 0
  = Ok {| col_year := []; col_fcff_millions := [];
          col_terminal_value_millions := []; col_npv_millions := [] |}.
Proof.
  apply (empty_frame_gives_empty_table
           {| Pandas.columns := [cfo_label; capex_label]; Pandas.rows := [] |}).
  reflexivity.
Defined.

(** ** A year whose FCFF is NaN *)

(** X5.  Whenever the run returns a table, the row of a record whose
    FCFF is NaN reports NaN for the FCFF, the terminal value and the
    NPV, next to its fiscal year: a NaN year neither aborts the run nor
    is reported as a number. *)
Theorem nan_fcff_row_is_nan
    (records : list (Z * pyfloat)) (r g : Q) (N : Z)
    (i : nat) (y : Z) (t : output_df) :
  dcf_table (map fst records) (map snd records) r g N = Ok t ->
  nth_error records i = Some (y, nan) ->
  exists row,
    nth_error (output_rows t) i = Some row /\
    vr_year row = y /\
    vr_fcff row = nan /\
    vr_terminal_value_pv row = nan /\
    vr_npv row = nan.
Proof.
  intros Ht Hi. apply dcf_table_ok_inv in Ht. destruct Ht as [_ ->].
  eexists. split.
  - unfold output_rows.
    cbn [col_year col_fcff_millions col_terminal_value_millions
         col_npv_millions].
    rewrite !map_map, table_rows_map, nth_error_map, Hi. reflexivity.
  - cbn [vr_year vr_fcff vr_terminal_value_pv vr_npv fst snd].
    unfold design_npv. cbn. repeat split.
    now destruct (sum (discounted_closed r g N nan)).
Qed.

Lemma nan_fcff_row_is_nan_witness :
  exists row,
    nth_error
      (output_rows
         {| col_year := [2020%Z; 2021%Z];
            col_fcff_millions := map millions [num 100; nan];
            col_terminal_value_millions :=
              map millions
                (map (fun x => design_terminal_value_pv (1 # 10) (1 # 50) 20
                                 (design_last_projected (1 # 50) 20 x))
                     [num 100; nan]);
            col_npv_millions :=
              map millions (map (design_npv (1 # 10) (1 # 50) 20)
                                [num 100; nan]) |}) 1
    = Some row /\
    vr_year row = 2021%Z /\
    vr_fcff row = nan /\
    vr_terminal_value_pv row = nan /\
    vr_npv row = nan.
Proof.
  apply (nan_fcff_row_is_nan
           [(2020%Z, num 100); (2021%Z, nan)] (1 # 10) (1 # 50) 20 1 2021%Z).
  - rewrite dcf_table_spec by reflexivity. reflexivity.
  - reflexivity.
Defined.

(** ** What the resolver returns in general *)

Lemma fillna0_column (df : Pandas.DataFrame) (label : string) :
  Pandas.fillna0 (Pandas.column df label)
  = map (fun r => (Pandas.row_label r, fill0 (Pandas.cell r label)))
        (Pandas.rows df).
Proof. unfold Pandas.fillna0, Pandas.column. now rewrite map_map. Qed.

Lemma resolver_step_shape (df : Pandas.DataFrame) (st : resolver_state) (l : string) :
  resolver_step df st l = st \/
  (Pandas.has_column df l = true /\
   resolver_step df st l
   = {| max_abs_value := Pandas.fillna0 (Pandas.column df l);
        found_label := Some l |}).
Proof.
  unfold resolver_step.
  destruct (Pandas.has_column df l); [| now left].
  destruct (Qgt_bool _ _); [right | left]; auto.
Qed.

(** The state of the resolver is always the default or a column of the
    frame with its NaN filled, tagged with the label of that column. *)
Lemma resolver_loop_shape (df : Pandas.DataFrame)
    (labels : list string) (st : resolver_state) :
  fold_left (resolver_step df) labels st = st \/
  exists l,
    In l labels /\ Pandas.has_column df l = true /\
    fold_left (resolver_step df) labels st
    = {| max_abs_value := Pandas.fillna0 (Pandas.column df l);
         found_label := Some l |}.
Proof.
  revert st. induction labels as [| x ls IH]; intros st; [now left |].
  cbn [fold_left].
  destruct (IH (resolver_step df st x)) as [Heq | (l & Hl & Hp & Heq)].
  - rewrite Heq.
    destruct (resolver_step_shape df st x) as [Hs | [Hp Hs]].
    + now left.
    + right. exists x. split; [now left | split; assumption].
  - right. exists l. split; [now right | split; assumption].
Qed.

(** X6.  Whatever the frame and the candidate list, the resolver
    either reports no label and returns the default Series of zeros
    under the positional index, or reports one of the candidates that
    is a column of the frame and returns that whole column, under the
    index of the frame, with every NaN replaced by 0.  In both cases
    the result has one entry per row of the frame and holds no NaN. *)
Theorem resolver_returns_one_filled_column
    (df : Pandas.DataFrame) (labels : list string) :
  let res := get_financial_value df labels in
  ((found_label res = None /\
    max_abs_value res = Pandas.constant_series (num 0) (Pandas.len df)) \/
   (exists l,
      found_label res = Some l /\ In l labels /\
      Pandas.has_column df l = true /\
      max_abs_value res
      = map (fun r => (Pandas.row_label r, fill0 (Pandas.cell r l)))
            (Pandas.rows df))) /\
  length (max_abs_value res) = Pandas.len df /\
  Forall (fun lv => snd lv <> nan) (max_abs_value res).
Proof.
  cbn zeta. unfold get_financial_value.
  destruct (resolver_loop_shape df labels
              {| max_abs_value := Pandas.constant_series (num 0) (Pandas.len df);
                 found_label := None |})
    as [Heq | (l & Hl & Hp & Heq)]; rewrite Heq; cbn [max_abs_value found_label].
  - split; [now left |]. split.
    + unfold Pandas.constant_series.
      rewrite length_combine, range_0_length, repeat_length. apply Nat.min_id.
    + apply Forall_forall. intros [l v] Hin.
      apply constant_series_in in Hin. subst v. discriminate.
  - rewrite fillna0_column. split.
    + right. exists l. repeat split; assumption.
    + split; [now rewrite length_map |].
      apply Forall_forall. intros lv Hin. apply in_map_iff in Hin.
      destruct Hin as (r & <- & _). cbn [snd].
      destruct (Pandas.cell r l); discriminate.
Qed.

(** ** When a label is chosen *)

Lemma sum_abs_cons (l : Z) (v : pyfloat) (s : Pandas.Series) :
  Pandas.sum (Pandas.abs ((l, v) :: s))
  = match v with
    | Some q => Qabs q + Pandas.sum (Pandas.abs s)
    | None => Pandas.sum (Pandas.abs s)
    end.
Proof. now destruct v. Qed.

Lemma series_abs_sum_nonneg (s : Pandas.Series) :
  0 <= Pandas.sum (Pandas.abs s).
Proof.
  induction s as [| [l v] s IH]; [apply Qle_refl |].
  rewrite sum_abs_cons. destruct v as [q |]; [| exact IH].
  pose proof (Qabs_nonneg q). lra.
Qed.

Lemma Qabs_positive (q : Q) : ~ q == 0 -> 0 < Qabs q.
Proof.
  intros Hq. destruct (Q_dec q 0) as [[Hlt | Hgt] | Heq]; [| | contradiction];
    apply Qabs_case; intros; lra.
Qed.

Lemma series_abs_sum_positive (s : Pandas.Series) :
  0 < Pandas.sum (Pandas.abs s) <->
  exists lv, In lv s /\ nonzero_cell (snd lv).
Proof.
  induction s as [| [l v] s IH].
  { cbn. split; [intros H; lra | intros (lv & [] & _)]. }
  rewrite sum_abs_cons.
  pose proof (series_abs_sum_nonneg s) as Hrest.
  destruct v as [q |].
  - split.
    + intros Hpos. destruct (Qeq_dec q 0) as [Hz | Hnz].
      * assert (Hq : Qabs q == 0) by (rewrite Hz; reflexivity).
        assert (Hs : 0 < Pandas.sum (Pandas.abs s)) by lra.
        apply IH in Hs. destruct Hs as (lv & Hin & Hnz).
        exists lv. split; [now right | exact Hnz].
      * exists (l, Some q). split; [now left |]. now exists q.
    + intros (lv & [<- | Hin] & q' & Hq' & Hnz).
      * cbn [snd] in Hq'. inversion Hq'. subst q'.
        pose proof (Qabs_positive q Hnz). lra.
      * assert (Hs : 0 < Pandas.sum (Pandas.abs s))
          by (apply IH; exists lv; split; [exact Hin | now exists q']).
        pose proof (Qabs_nonneg q). lra.
  - rewrite IH. split.
    + intros (lv & Hin & Hnz). exists lv. split; [now right | exact Hnz].
    + intros (lv & [<- | Hin] & Hnz).
      * destruct Hnz as (q & Hq & _). discriminate.
      * exists lv. split; assumption.
Qed.


(** The total of absolute values of a column is positive exactly when
    some row holds a number other than zero in it. *)
Lemma abs_sum_positive (df : Pandas.DataFrame) (l : string) :
  0 < abs_sum df l <->
  exists r, In r (Pandas.rows df) /\ nonzero_cell (Pandas.cell r l).
Proof.
  unfold abs_sum. rewrite series_abs_sum_positive. unfold Pandas.column. split.
  - intros (lv & Hin & Hnz). apply in_map_iff in Hin.
    destruct Hin as (r & <- & Hin). now exists r.
  - intros (r & Hin & Hnz).
    exists (Pandas.row_label r, Pandas.cell r l). split; [| exact Hnz].
    apply in_map_iff. now exists r.
Qed.

Lemma resolver_found_stays (df : Pandas.DataFrame)
    (labels : list string) (st : resolver_state) :
  found_label st <> None ->
  found_label (fold_left (resolver_step df) labels st) <> None.
Proof.
  revert st. induction labels as [| x ls IH]; intros st Hst; [exact Hst |].
  cbn [fold_left]. apply IH.
  destruct (resolver_step_shape df st x) as [-> | [_ ->]];
    [exact Hst | discriminate].
Qed.

Lemma resolver_none_iff (df : Pandas.DataFrame)
    (labels : list string) (st : resolver_state) :
  found_label st = None ->
  Pandas.sum (max_abs_value st) == 0 ->
  (found_label (fold_left (resolver_step df) labels st) = None <->
   forall l, In l labels -> Pandas.has_column df l = true ->
             ~ 0 < abs_sum df l).
Proof.
  revert st. induction labels as [| x ls IH]; intros st Hnone Hsum.
  { cbn. split; [intros _ l [] | intros _; exact Hnone]. }
  cbn [fold_left]. unfold resolver_step at 2.
  destruct (Pandas.has_column df x) eqn:Hx.
  2:{ rewrite (IH st Hnone Hsum). split.
      - intros H l [<- | Hl] Hp; [congruence | now apply H].
      - intros H l Hl. apply H. now right. }
  fold (abs_sum df x).
  destruct (Qgt_bool (abs_sum df x) (Pandas.sum (max_abs_value st))) eqn:Hgt.
  - apply Qgt_bool_true in Hgt. split.
    + intros H. exfalso. revert H. apply resolver_found_stays. discriminate.
    + intros H. exfalso. apply (H x (or_introl eq_refl) Hx). lra.
  - apply Qgt_bool_false in Hgt. rewrite (IH st Hnone Hsum). split.
    + intros H l [<- | Hl] Hp; [lra | now apply H].
    + intros H l Hl. apply H. now right.
Qed.

(** X7.  A label is reported as chosen exactly when some candidate
    that is a column of the frame holds a number other than zero in
    some row.  In particular a candidate column that is entirely zero
    or NaN is passed over, and the default Series is returned as if
    the column did not exist. *)
Theorem resolver_chooses_iff_some_nonzero_cell
    (df : Pandas.DataFrame) (labels : list string) :
  found_label (get_financial_value df labels) <> None <->
  exists l r,
    In l labels /\ Pandas.has_column df l = true /\
    In r (Pandas.rows df) /\ nonzero_cell (Pandas.cell r l).
Proof.
  unfold get_financial_value.
  pose proof (resolver_none_iff df labels
                {| max_abs_value := Pandas.constant_series (num 0) (Pandas.len df);
                   found_label := None |} eq_refl
                (sum_constant_series_zero (Pandas.len df))) as Hiff.
  split.
  - intros Hfound.
    assert (Hex : ~ forall l, In l labels -> Pandas.has_column df l = true ->
                              ~ 0 < abs_sum df l)
      by (intros H; apply Hfound; now apply Hiff).
    clear Hiff Hfound. induction labels as [| x ls IH].
    { exfalso. apply Hex. intros l []. }
    destruct (Pandas.has_column df x) eqn:Hx.
    + destruct (Qlt_le_dec 0 (abs_sum df x)) as [Hpos | Hle].
      * apply abs_sum_positive in Hpos. destruct Hpos as (r & Hin & Hnz).
        exists x, r. repeat split; try assumption. now left.
      * destruct IH as (l & r & Hl & Hrest).
        { intros H. apply Hex. intros l [<- | Hl] Hp; [lra | now apply H]. }
        exists l, r. split; [now right | exact Hrest].
    + destruct IH as (l & r & Hl & Hrest).
      { intros H. apply Hex. intros l [<- | Hl] Hp; [congruence | now apply H]. }
      exists l, r. split; [now right | exact Hrest].
  - intros (l & r & Hl & Hp & Hin & Hnz) Hnone.
    apply (proj1 Hiff Hnone l Hl Hp).
    apply abs_sum_positive. now exists r.
Qed.

(** ** FCFF, row by row *)

Lemma lookup_not_in (s : Pandas.Series) (l : Z) :
  ~ In l (map fst s) -> Pandas.lookup s l = None.
Proof.
  induction s as [| [l' v] s IH]; intros Hnot; [reflexivity |].
  cbn [Pandas.lookup]. destruct (Z.eqb_spec l l') as [-> | Hne].
  - exfalso. apply Hnot. now left.
  - apply IH. intros Hin. apply Hnot. now right.
Qed.

Lemma in_range (lo hi l : Z) : In l (range lo hi) <-> (lo <= l < hi)%Z.
Proof.
  unfold range. rewrite in_map_iff. split.
  - intros (k & <- & Hk). apply in_seq in Hk. lia.
  - intros Hl. exists (Z.to_nat (l - lo)). split; [lia |].
    apply in_seq. lia.
Qed.

(** The subtraction followed by the assignment reads both operands at
    the label of each row. *)
Lemma assigned_sub (df : Pandas.DataFrame) (a b : Pandas.Series) :
  Pandas.assigned_column df (Pandas.sub a b)
  = map (fun r =>
           match Pandas.lookup a (Pandas.row_label r),
                 Pandas.lookup b (Pandas.row_label r) with
           | Some x, Some y => fsub x y
           | _, _ => nan
           end) (Pandas.rows df).
Proof.
  unfold Pandas.assigned_column. apply map_ext. intros r.
  set (l := Pandas.row_label r). unfold Pandas.sub.
  set (ls := map fst a ++
             filter (fun l0 => negb (existsb (Z.eqb l0) (map fst a))) (map fst b)).
  destruct (in_dec Z.eq_dec l ls) as [Hin | Hnot].
  - now rewrite lookup_labelled by exact Hin.
  - rewrite lookup_not_in.
    + rewrite (lookup_not_in a); [reflexivity |].
      intros Ha. apply Hnot. apply in_or_app. now left.
    + rewrite map_map. cbn [fst]. now rewrite map_id.
Qed.

Lemma lookup_row (G : Pandas.Row -> pyfloat) (rs : list Pandas.Row) (r : Pandas.Row) :
  NoDup (map Pandas.row_label rs) -> In r rs ->
  Pandas.lookup (map (fun r => (Pandas.row_label r, G r)) rs)
                (Pandas.row_label r)
  = Some (G r).
Proof.
  intros Hnd Hin. apply lookup_nodup.
  - rewrite map_map. exact Hnd.
  - apply in_map_iff. now exists r.
Qed.

Lemma lookup_constant_series (v : pyfloat) (n : nat) (l : Z) :
  Pandas.lookup (Pandas.constant_series v n) l
  = if ((0 <=? l) && (l <? Z.of_nat n))%Z%bool then Some v else None.
Proof.
  destruct (Z.leb_spec 0 l) as [H0 | H0];
    destruct (Z.ltb_spec l (Z.of_nat n)) as [Hn | Hn]; cbn [andb];
    try (apply lookup_not_in; rewrite constant_series_index, in_range; lia).
  destruct (lookup_in (Pandas.constant_series v n) l) as (w & Hw & Hin).
  { rewrite constant_series_index, in_range. lia. }
  apply constant_series_in in Hin. now subst w.
Qed.

Lemma resolver_found_column
    (df : Pandas.DataFrame) (labels : list string) (l : string) :
  found_label (get_financial_value df labels) = Some l ->
  max_abs_value (get_financial_value df labels)
  = map (fun r => (Pandas.row_label r, fill0 (Pandas.cell r l)))
        (Pandas.rows df).
Proof.
  unfold get_financial_value.
  destruct (resolver_loop_shape df labels
              {| max_abs_value := Pandas.constant_series (num 0) (Pandas.len df);
                 found_label := None |})
    as [Heq | (l' & _ & _ & Heq)]; rewrite Heq; cbn [found_label max_abs_value].
  - discriminate.
  - intros E. inversion E. subst l'. apply fillna0_column.
Qed.

Lemma resolver_none_default
    (df : Pandas.DataFrame) (labels : list string) :
  found_label (get_financial_value df labels) = None ->
  max_abs_value (get_financial_value df labels)
  = Pandas.constant_series (num 0) (Pandas.len df).
Proof.
  unfold get_financial_value.
  destruct (resolver_loop_shape df labels
              {| max_abs_value := Pandas.constant_series (num 0) (Pandas.len df);
                 found_label := None |})
    as [Heq | (l' & _ & _ & Heq)]; rewrite Heq; cbn [found_label max_abs_value].
  - reflexivity.
  - discriminate.
Qed.

(** X8.  When the row labels of the frame are distinct and a label is
    chosen for both concepts, the FCFF of every row is the difference
    of that row's own two cells, a missing cell counting as 0; no row
    is NaN. *)
Theorem fcff_is_rowwise_difference
    (df : Pandas.DataFrame) (cfo_labels capex_labels : list string)
    (lc lx : string) :
  NoDup (map Pandas.row_label (Pandas.rows df)) ->
  found_label (get_financial_value df cfo_labels) = Some lc ->
  found_label (get_financial_value df capex_labels) = Some lx ->
  fcff_column df cfo_labels capex_labels
  = map (fun r => fsub (fill0 (Pandas.cell r lc)) (fill0 (Pandas.cell r lx)))
        (Pandas.rows df) /\
  Forall (fun x => x <> nan) (fcff_column df cfo_labels capex_labels).
Proof.
  intros Hnd Hc Hx.
  assert (Heq : fcff_column df cfo_labels capex_labels
                = map (fun r => fsub (fill0 (Pandas.cell r lc))
                                     (fill0 (Pandas.cell r lx)))
                      (Pandas.rows df)).
  { unfold fcff_column. rewrite assigned_sub.
    rewrite (resolver_found_column df cfo_labels lc Hc).
    rewrite (resolver_found_column df capex_labels lx Hx).
    apply map_ext_in. intros r Hin.
    now rewrite !lookup_row by assumption. }
  split; [exact Heq |].
  rewrite Heq. apply Forall_forall. intros x Hin.
  apply in_map_iff in Hin. destruct Hin as (r & <- & _).
  destruct (Pandas.cell r lc), (Pandas.cell r lx); discriminate.
Qed.

Lemma fcff_is_rowwise_difference_witness :
  fcff_column (apple_frame sample_sheet_capex)
              label_variations_cfo label_variations_capex
  = map (fun r => fsub (fill0 (Pandas.cell r cfo_label))
                       (fill0 (Pandas.cell r capex_label)))
        (Pandas.rows (apple_frame sample_sheet_capex)).
Proof.
  apply (fcff_is_rowwise_difference (apple_frame sample_sheet_capex)
           label_variations_cfo label_variations_capex
           cfo_label capex_label).
  - vm_compute. repeat constructor; cbn; intuition discriminate.
  - reflexivity.
  - reflexivity.
Defined.

(** X9.  When the row labels of the frame are distinct, a label [lc] is
    chosen for cfo and none for capex, the FCFF of a row is its cfo
    minus 0 if the label of the row lies in [0 .. n-1], [n] being the
    number of rows, and NaN otherwise: the zero default is aligned by
    position-valued labels, not by row. *)
Theorem fcff_without_capex_label
    (df : Pandas.DataFrame) (cfo_labels capex_labels : list string)
    (lc : string) :
  NoDup (map Pandas.row_label (Pandas.rows df)) ->
  found_label (get_financial_value df cfo_labels) = Some lc ->
  found_label (get_financial_value df capex_labels) = None ->
  fcff_column df cfo_labels capex_labels
  = map (fun r =>
           if ((0 <=? Pandas.row_label r) &&
               (Pandas.row_label r <? Z.of_nat (Pandas.len df)))%Z%bool
           then fsub (fill0 (Pandas.cell r lc)) (num 0)
           else nan)
        (Pandas.rows df).
Proof.
  intros Hnd Hc Hx. unfold fcff_column. rewrite assigned_sub.
  rewrite (resolver_found_column df cfo_labels lc Hc).
  rewrite (resolver_none_default df capex_labels Hx).
  apply map_ext_in. intros r Hin.
  rewrite lookup_row by assumption.
  rewrite lookup_constant_series.
  now destruct ((0 <=? Pandas.row_label r) &&
                (Pandas.row_label r <? Z.of_nat (Pandas.len df)))%Z%bool.
Qed.

Lemma fcff_without_capex_label_witness :
  fcff_column (apple_frame sample_sheet)
              label_variations_cfo label_variations_capex
  = map (fun r =>
           if ((0 <=? Pandas.row_label r) &&
               (Pandas.row_label r
                <? Z.of_nat (Pandas.len (apple_frame sample_sheet))))%Z%bool
           then fsub (fill0 (Pandas.cell r cfo_label)) (num 0)
           else nan)
        (Pandas.rows (apple_frame sample_sheet)).
Proof.
  apply (fcff_without_capex_label (apple_frame sample_sheet)
           label_variations_cfo label_variations_capex cfo_label).
  - vm_compute. repeat constructor; cbn; intuition discriminate.
  - reflexivity.
  - reflexivity.
Defined.

(* ================================================================== *)
(** * Properties of [process_input_data] *)

(** ** The order on keys *)

Lemma ascii_compare_refl (a : Ascii.ascii) : Ascii.compare a a = Eq.
Proof. unfold Ascii.compare. apply N.compare_refl. Qed.

Lemma ascii_compare_lt_trans (a b c : Ascii.ascii) :
  Ascii.compare a b = Lt -> Ascii.compare b c = Lt -> Ascii.compare a c = Lt.
Proof.
  unfold Ascii.compare. rewrite !N.compare_lt_iff. apply N.lt_trans.
Qed.

Lemma string_compare_refl (s : string) : String.compare s s = Eq.
Proof.
  induction s as [| a s IH]; [reflexivity |].
  cbn. now rewrite ascii_compare_refl.
Qed.

Lemma string_compare_lt_trans (s t u : string) :
  String.compare s t = Lt -> String.compare t u = Lt -> String.compare s u = Lt.
Proof.
  revert t u. induction s as [| a s IH]; intros [| b t] [| c u]; cbn;
    try discriminate; try reflexivity.
  destruct (Ascii.compare a b) eqn:Eab; try discriminate.
  - apply Ascii.compare_eq_iff in Eab. subst b.
    destruct (Ascii.compare a c); try discriminate; [apply IH | reflexivity].
  - intros _. destruct (Ascii.compare b c) eqn:Ebc; try discriminate.
    + apply Ascii.compare_eq_iff in Ebc. subst c. now rewrite Eab.
    + now rewrite (ascii_compare_lt_trans a b c Eab Ebc).
Qed.

Lemma key_compare_eq (k k' : Sheet.Key) :
  Sheet.key_compare k k' = Eq -> k = k'.
Proof.
  destruct k as [[y f] n], k' as [[y' f'] n']. unfold Sheet.key_compare.
  cbn [fst snd].
  destruct (Z.compare_spec y y') as [-> | |]; try discriminate.
  destruct (String.compare f f') eqn:Ef; try discriminate.
  apply String.compare_eq_iff in Ef. subst f'.
  intros En. apply String.compare_eq_iff in En. now subst n'.
Qed.

Lemma key_compare_refl (k : Sheet.Key) : Sheet.key_compare k k = Eq.
Proof.
  destruct k as [[y f] n]. unfold Sheet.key_compare. cbn [fst snd].
  now rewrite Z.compare_refl, !string_compare_refl.
Qed.

Lemma key_compare_antisym (k k' : Sheet.Key) :
  Sheet.key_compare k k' = CompOpp (Sheet.key_compare k' k).
Proof.
  destruct k as [[y f] n], k' as [[y' f'] n']. unfold Sheet.key_compare.
  cbn [fst snd].
  rewrite (Z.compare_antisym y' y).
  destruct (y' ?= y)%Z; cbn [CompOpp]; try reflexivity.
  rewrite (String.compare_antisym f f').
  destruct (String.compare f' f); cbn [CompOpp]; try reflexivity.
  apply String.compare_antisym.
Qed.

Lemma key_compare_lt_trans (k1 k2 k3 : Sheet.Key) :
  Sheet.key_compare k1 k2 = Lt -> Sheet.key_compare k2 k3 = Lt ->
  Sheet.key_compare k1 k3 = Lt.
Proof.
  destruct k1 as [[y1 f1] n1], k2 as [[y2 f2] n2], k3 as [[y3 f3] n3].
  unfold Sheet.key_compare. cbn [fst snd].
  destruct (Z.compare_spec y1 y2) as [-> | H12 |]; try discriminate.
  - destruct (Z.compare_spec y2 y3) as [-> | H23 |]; try discriminate;
      [| reflexivity].
    destruct (String.compare f1 f2) eqn:E12; try discriminate.
    + apply String.compare_eq_iff in E12. subst f2.
      destruct (String.compare f1 f3); try discriminate;
        [apply string_compare_lt_trans | reflexivity].
    + intros _. destruct (String.compare f2 f3) eqn:E23; try discriminate.
      * apply String.compare_eq_iff in E23. subst f3. now rewrite E12.
      * now rewrite (string_compare_lt_trans f1 f2 f3 E12 E23).
  - intros _. destruct (Z.compare_spec y2 y3) as [-> | H23 |]; try discriminate.
    + intros _. now replace (y1 ?= y3)%Z with Lt by (symmetry; now apply Z.compare_lt_iff).
    + intros _. replace (y1 ?= y3)%Z with Lt; [reflexivity |].
      symmetry. apply Z.compare_lt_iff. lia.
Qed.

Lemma key_eqb_eq (k k' : Sheet.Key) : Sheet.key_eqb k k' = true <-> k = k'.
Proof.
  unfold Sheet.key_eqb. split.
  - destruct (Sheet.key_compare k k') eqn:E; try discriminate.
    intros _. now apply key_compare_eq.
  - intros ->. now rewrite key_compare_refl.
Qed.

(** ** Grouping *)

Lemma insert_key_in (k x : Sheet.Key) (l : list Sheet.Key) :
  In x (Sheet.insert_key k l) <-> x = k \/ In x l.
Proof.
  induction l as [| k' l IH]; cbn [Sheet.insert_key].
  - cbn. intuition.
  - destruct (Sheet.key_compare k k') eqn:E.
    + apply key_compare_eq in E. subst k'. cbn. intuition.
    + cbn. intuition.
    + cbn [In]. rewrite IH. intuition.
Qed.

Lemma insert_key_sorted (k : Sheet.Key) (l : list Sheet.Key) :
  Sorted.StronglySorted key_lt l ->
  Sorted.StronglySorted key_lt (Sheet.insert_key k l).
Proof.
  induction 1 as [| k' l Hs IH Hall]; cbn [Sheet.insert_key].
  - repeat constructor.
  - destruct (Sheet.key_compare k k') eqn:E.
    + now constructor.
    + constructor; [now constructor |].
      constructor; [exact E |].
      eapply Forall_impl; [| exact Hall].
      intros x Hx. eapply key_compare_lt_trans; eassumption.
    + constructor; [exact IH |].
      apply Forall_forall. intros x Hx. apply insert_key_in in Hx.
      destruct Hx as [-> | Hx].
      * unfold key_lt. rewrite key_compare_antisym, E. reflexivity.
      * rewrite Forall_forall in Hall. now apply Hall.
Qed.

Lemma group_keys_sorted (l : list Sheet.StatementRow) :
  Sorted.StronglySorted key_lt (Sheet.group_keys l).
Proof.
  induction l as [| r l IH]; cbn; [constructor |].
  destruct (Sheet.key_of r); [now apply insert_key_sorted | exact IH].
Qed.

Lemma group_keys_in (l : list Sheet.StatementRow) (k : Sheet.Key) :
  In k (Sheet.group_keys l) <-> exists r, In r l /\ Sheet.key_of r = Some k.
Proof.
  induction l as [| r l IH]; cbn [Sheet.group_keys fold_right].
  - cbn. split; [contradiction | intros (r & [] & _)].
  - fold (Sheet.group_keys l).
    destruct (Sheet.key_of r) as [k' |] eqn:Ek.
    + rewrite insert_key_in, IH. split.
      * intros [-> | (r' & Hin & Hk)];
          [exists r; split; [now left | exact Ek]
          | exists r'; split; [now right | exact Hk]].
      * intros (r' & [<- | Hin] & Hk).
        -- left. congruence.
        -- right. now exists r'.
    + rewrite IH. split.
      * intros (r' & Hin & Hk). exists r'. split; [now right | exact Hk].
      * intros (r' & [<- | Hin] & Hk); [congruence | now exists r'].
Qed.

Lemma sorted_keys_nodup (l : list Sheet.Key) :
  Sorted.StronglySorted key_lt l -> NoDup l.
Proof.
  induction 1 as [| k l Hs IH Hall]; constructor; [| exact IH].
  intros Hin. rewrite Forall_forall in Hall. specialize (Hall k Hin).
  unfold key_lt in Hall. rewrite key_compare_refl in Hall. discriminate.
Qed.

(** ** The three statements share their groups *)

Lemma group_keys_cons (r : Sheet.StatementRow) (l : list Sheet.StatementRow) :
  Sheet.group_keys (r :: l)
  = match Sheet.key_of r with
    | Some k => Sheet.insert_key k (Sheet.group_keys l)
    | None => Sheet.group_keys l
    end.
Proof. reflexivity. Qed.

Lemma dropna_name_cons (r : Sheet.StatementRow) (l : list Sheet.StatementRow) :
  Sheet.dropna_name (r :: l)
  = match Sheet.st_name r with
    | Some _ => r :: Sheet.dropna_name l
    | None => Sheet.dropna_name l
    end.
Proof. unfold Sheet.dropna_name. cbn [filter]. now destruct (Sheet.st_name r). Qed.

Lemma key_of_statement_row (items : list string) (r : Sheet.Row) :
  Sheet.key_of (Sheet.statement_row items r) = row_key r.
Proof. reflexivity. Qed.

Lemma row_key_name (r : Sheet.Row) :
  Sheet.name r = None -> row_key r = None.
Proof.
  unfold row_key. intros ->. now destruct (Sheet.fy r), (Sheet.form r).
Qed.

Lemma group_keys_statement_rows (items : list string) (rs : list Sheet.Row) :
  Sheet.group_keys (Sheet.dropna_name (map (Sheet.statement_row items) rs))
  = fold_right (fun r acc => match row_key r with
                             | Some k => Sheet.insert_key k acc
                             | None => acc
                             end) [] rs.
Proof.
  induction rs as [| r rs IH]; [reflexivity |].
  cbn [map fold_right]. rewrite dropna_name_cons.
  change (Sheet.st_name (Sheet.statement_row items r)) with (Sheet.name r).
  destruct (Sheet.name r) as [n |] eqn:En.
  - now rewrite group_keys_cons, key_of_statement_row, IH.
  - now rewrite (row_key_name r En), IH.
Qed.

Lemma group_keys_statement (df : Sheet.Frame) (items : list string) :
  Sheet.group_keys
    (Sheet.dropna_name (map (Sheet.statement_row items) (Sheet.rows df)))
  = sheet_keys df.
Proof. apply group_keys_statement_rows. Qed.

Lemma group_rows_statement_rows (items : list string) (k : Sheet.Key)
    (rs : list Sheet.Row) :
  filter (Sheet.in_group k)
    (Sheet.dropna_name (map (Sheet.statement_row items) rs))
  = map (Sheet.statement_row items)
      (filter (fun r => match row_key r with
                        | Some k' => Sheet.key_eqb k k'
                        | None => false
                        end) rs).
Proof.
  induction rs as [| r rs IH]; [reflexivity |].
  cbn [map]. rewrite dropna_name_cons.
  change (Sheet.st_name (Sheet.statement_row items r)) with (Sheet.name r).
  cbn [filter].
  destruct (Sheet.name r) as [n |] eqn:En.
  - cbn [filter]. unfold Sheet.in_group at 1.
    rewrite key_of_statement_row.
    destruct (row_key r) as [k' |]; [| exact IH].
    destruct (Sheet.key_eqb k k'); [| exact IH].
    cbn [map]. now rewrite IH.
  - now rewrite (row_key_name r En).
Qed.

Lemma map_seq_nth {A B} (G : A -> B) (l : list A) (d : A) :
  map (fun j => G (nth j l d)) (seq 0 (length l)) = map G l.
Proof.
  induction l as [| a l IH]; [reflexivity |].
  cbn [length seq map nth]. f_equal.
  rewrite <- seq_shift, map_map. exact IH.
Qed.

(** Every statement frame, once grouped, holds one row per key of the
    sheet, in ascending order of the keys, with the totals of its
    items. *)
Lemma groupby_sum_statement (df : Sheet.Frame) (items : list string) :
  Sheet.groupby_sum (length items)
    (Sheet.dropna_name (map (Sheet.statement_row items) (Sheet.rows df)))
  = map (fun k => {| Sheet.g_key := k;
                     Sheet.g_values := map (fun c => num (total df k c)) items |})
        (sheet_keys df).
Proof.
  unfold Sheet.groupby_sum. rewrite group_keys_statement.
  apply map_ext. intros k. f_equal.
  rewrite group_rows_statement_rows, <- (map_seq_nth _ items EmptyString).
  apply map_ext_in. intros j Hj. apply in_seq in Hj.
  f_equal. unfold total, filings. rewrite map_map. f_equal.
  apply map_ext. intros r. cbn [Sheet.statement_row Sheet.st_values].
  rewrite (nth_indep _ nan (Sheet.item r EmptyString))
    by (rewrite length_map; lia).
  apply map_nth.
Qed.

Lemma sheet_keys_sorted (df : Sheet.Frame) :
  Sorted.StronglySorted key_lt (sheet_keys df).
Proof.
  unfold sheet_keys.
  induction (Sheet.rows df) as [| r l IH]; cbn; [constructor |].
  destruct (row_key r); [now apply insert_key_sorted | exact IH].
Qed.

Lemma sheet_keys_in (df : Sheet.Frame) (k : Sheet.Key) :
  In k (sheet_keys df) <->
  exists r, In r (Sheet.rows df) /\ row_key r = Some k.
Proof.
  unfold sheet_keys.
  induction (Sheet.rows df) as [| r l IH]; cbn [fold_right].
  - cbn. split; [contradiction | intros (r & [] & _)].
  - destruct (row_key r) as [k' |] eqn:Ek.
    + rewrite insert_key_in, IH. split.
      * intros [-> | (r' & Hin & Hk)];
          [exists r; split; [now left | exact Ek]
          | exists r'; split; [now right | exact Hk]].
      * intros (r' & [<- | Hin] & Hk).
        -- left. congruence.
        -- right. now exists r'.
    + rewrite IH. split.
      * intros (r' & Hin & Hk). exists r'. split; [now right | exact Hk].
      * intros (r' & [<- | Hin] & Hk); [congruence | now exists r'].
Qed.

(** ** Merging frames that hold the same keys *)

Lemma filter_key_unique (K : list Sheet.Key) (k : Sheet.Key) :
  NoDup K -> In k K -> filter (fun k' => Sheet.key_eqb k k') K = [k].
Proof.
  induction K as [| k0 K IH]; intros Hnd Hin; [contradiction |].
  inversion Hnd as [| ? ? Hnotin Hnd']; subst. cbn [filter].
  destruct (Sheet.key_eqb k k0) eqn:E.
  - apply key_eqb_eq in E. subst k0. f_equal.
    clear IH Hin Hnd. induction K as [| k1 K IH]; [reflexivity |].
    cbn [filter]. destruct (Sheet.key_eqb k k1) eqn:E1.
    + apply key_eqb_eq in E1. subst k1. exfalso. apply Hnotin. now left.
    + apply IH.
      * intros H. apply Hnotin. now right.
      * now inversion Hnd'.
  - destruct Hin as [-> | Hin].
    + rewrite (proj2 (key_eqb_eq k k) eq_refl) in E. discriminate.
    + now apply IH.
Qed.

Lemma merge_inner_same_keys {A B} (ka : A -> Sheet.Key) (kb : B -> Sheet.Key)
    (fa : Sheet.Key -> A) (fb : Sheet.Key -> B) (K : list Sheet.Key) :
  NoDup K ->
  (forall k, ka (fa k) = k) -> (forall k, kb (fb k) = k) ->
  Sheet.merge_inner ka kb (map fa K) (map fb K)
  = map (fun k => (fa k, fb k)) K.
Proof.
  intros Hnd Ha Hb. unfold Sheet.merge_inner.
  assert (Hgen : forall L, incl L K ->
    flat_map (fun a => map (fun b => (a, b))
                (filter (fun b => Sheet.key_eqb (ka a) (kb b)) (map fb K)))
             (map fa L)
    = map (fun k => (fa k, fb k)) L).
  { induction L as [| k L IH]; intros Hincl; [reflexivity |].
    cbn [map flat_map]. rewrite IH by (intros x Hx; apply Hincl; now right).
    rewrite Ha.
    assert (Hf : filter (fun b => Sheet.key_eqb k (kb b)) (map fb K) = [fb k]).
    { assert (Hfm : forall (M : list Sheet.Key),
                filter (fun b => Sheet.key_eqb k (kb b)) (map fb M)
                = map fb (filter (fun k' => Sheet.key_eqb k k') M)).
      { induction M as [| m M IHM]; [reflexivity |].
        cbn [map filter]. rewrite Hb.
        destruct (Sheet.key_eqb k m); cbn [map]; now rewrite IHM. }
      rewrite Hfm, filter_key_unique; [reflexivity | exact Hnd |].
      apply Hincl. now left. }
    rewrite Hf. reflexivity. }
  apply Hgen. apply incl_refl.
Qed.

(** ** The frame that [process_input_data] returns *)

Lemma has_columns_spec (df : Sheet.Frame) (cols : list string) :
  Sheet.has_columns df cols = true <->
  forall c, In c cols -> In c (Sheet.columns df).
Proof.
  unfold Sheet.has_columns. rewrite forallb_forall. split.
  - intros H c Hc. specialize (H c Hc). apply existsb_exists in H.
    destruct H as (c' & Hin & Heq). apply String.eqb_eq in Heq. now subst c'.
  - intros H c Hc. apply existsb_exists. exists c.
    split; [now apply H | apply String.eqb_refl].
Qed.

Lemma select_loaded (df : Sheet.Frame) (items : list string) :
  Sheet.has_columns df required_columns = true ->
  incl items required_columns ->
  Sheet.select df items
  = Sheet.Loaded (map (Sheet.statement_row items) (Sheet.rows df)).
Proof.
  intros Hreq Hincl. unfold Sheet.select.
  replace (Sheet.has_columns df ("fy" :: "form" :: "name" :: items)%string)
    with true; [reflexivity |].
  symmetry. apply has_columns_spec. intros c Hc.
  apply (proj1 (has_columns_spec df required_columns) Hreq).
  destruct Hc as [<- | [<- | [<- | Hc]]];
    [now left | right; now left | right; right; now left | now apply Hincl].
Qed.

Lemma select_key_error (df : Sheet.Frame) (items : list string) :
  Sheet.has_columns df ("fy" :: "form" :: "name" :: items)%string = false ->
  Sheet.select df items = Sheet.KeyError.
Proof. intros H. unfold Sheet.select. now rewrite H. Qed.

Lemma combine_map_r {A B C} (f : B -> C) (l : list A) (l' : list B) :
  combine l (map f l') = map (fun p => (fst p, f (snd p))) (combine l l').
Proof.
  revert l'. induction l as [| a l IH]; intros [| b l']; try reflexivity.
  cbn. now rewrite IH.
Qed.

Lemma merged_df_closed (df : Sheet.Frame) :
  Sheet.merged_df
    (Sheet.groupby_sum 3
       (Sheet.dropna_name
          (map (Sheet.statement_row Sheet.balance_sheet_items) (Sheet.rows df))))
    (Sheet.groupby_sum 4
       (Sheet.dropna_name
          (map (Sheet.statement_row Sheet.income_statement_items) (Sheet.rows df))))
    (Sheet.groupby_sum 3
       (Sheet.dropna_name
          (map (Sheet.statement_row Sheet.cash_flow_items) (Sheet.rows df))))
  = map (fun lk => key_row df (fst lk) (snd lk)) (labelled_keys df).
Proof.
  change 3%nat with (length Sheet.balance_sheet_items) at 1.
  change 4%nat with (length Sheet.income_statement_items).
  change 3%nat with (length Sheet.cash_flow_items).
  rewrite !groupby_sum_statement.
  pose proof (sorted_keys_nodup _ (sheet_keys_sorted df)) as Hnd.
  unfold Sheet.merged_df.
  rewrite (merge_inner_same_keys Sheet.g_key Sheet.g_key _ _ _ Hnd)
    by reflexivity.
  rewrite (merge_inner_same_keys (fun p => Sheet.g_key (fst p)) Sheet.g_key
             (fun k => (_, _)) _ _ Hnd) by reflexivity.
  rewrite length_map, combine_map_r, map_map.
  reflexivity.
Qed.

Lemma is_apple_key_row (df : Sheet.Frame) (lk : Z * Sheet.Key) :
  Sheet.is_apple (key_row df (fst lk) (snd lk)) = apple_key lk.
Proof.
  unfold Sheet.is_apple, apple_key. cbn.
  now destruct (String.eqb (snd (snd lk)) "APPLE INC").
Qed.

Lemma filter_map_commute {A B} (f : A -> B) (p : B -> bool) (q : A -> bool)
    (l : list A) :
  (forall a, p (f a) = q a) ->
  filter p (map f l) = map f (filter q l).
Proof.
  intros H. induction l as [| a l IH]; [reflexivity |].
  cbn [map filter]. rewrite H. destruct (q a); cbn [map]; now rewrite IH.
Qed.

Lemma drop_duplicates_distinct (seen : list (Z * string)) (l : list Sheet.MergedRow) :
  NoDup (map (fun r => (Sheet.m_fy r, Sheet.m_form r)) l) ->
  (forall r, In r l -> ~ In (Sheet.m_fy r, Sheet.m_form r) seen) ->
  Sheet.drop_duplicates seen l = l.
Proof.
  revert seen. induction l as [| r l IH]; intros seen Hnd Hseen; [reflexivity |].
  cbn [map] in Hnd. inversion Hnd as [| ? ? Hnotin Hnd']; subst.
  cbn [Sheet.drop_duplicates].
  destruct (existsb _ seen) eqn:E.
  - exfalso. apply existsb_exists in E. destruct E as ([y f] & Hin & Heq).
    cbn [fst snd] in Heq. apply andb_true_iff in Heq. destruct Heq as [Hy Hf].
    apply Z.eqb_eq in Hy. apply String.eqb_eq in Hf. subst.
    now apply (Hseen r (or_introl eq_refl)).
  - f_equal. apply IH; [exact Hnd' |].
    intros r' Hr' [Heq | Hin].
    + apply Hnotin. rewrite Heq. apply in_map_iff. now exists r'.
    + now apply (Hseen r' (or_intror Hr')).
Qed.

Lemma labelled_keys_snd (df : Sheet.Frame) :
  map snd (labelled_keys df) = sheet_keys df.
Proof.
  unfold labelled_keys.
  generalize (sheet_keys df). intros K.
  assert (H : forall (lo : Z) (K : list Sheet.Key),
            map snd (combine (range lo (lo + Z.of_nat (length K))) K) = K).
  { clear. intros lo K. revert lo. induction K as [| k K IH]; intros lo.
    - now rewrite range_empty by (cbn; lia).
    - rewrite range_succ by (cbn [length]; lia). cbn [combine map snd].
      f_equal.
      replace (lo + Z.of_nat (length (k :: K)))%Z
        with (lo + 1 + Z.of_nat (length K))%Z by (cbn [length]; lia).
      apply IH. }
  apply (H 0%Z).
Qed.

Lemma labelled_keys_fst (df : Sheet.Frame) :
  map fst (labelled_keys df)
  = range 0 (Z.of_nat (length (sheet_keys df))).
Proof.
  unfold labelled_keys.
  set (K := sheet_keys df).
  assert (H : forall (ls : list Z) (K : list Sheet.Key),
            length ls = length K -> map fst (combine ls K) = ls).
  { clear. induction ls as [| l ls IH]; intros [| k K] Hlen;
      try discriminate; [reflexivity |].
    cbn. f_equal. apply IH. now inversion Hlen. }
  apply H. now rewrite range_0_length.
Qed.

Lemma NoDup_map_transfer {A B C} (f : A -> B) (g : A -> C) (l : list A) :
  NoDup (map g l) ->
  (forall x y, In x l -> In y l -> f x = f y -> g x = g y) ->
  NoDup (map f l).
Proof.
  induction l as [| a l IH]; intros Hnd Hinj; [constructor |].
  cbn [map] in *. inversion Hnd as [| ? ? Hnotin Hnd']; subst. constructor.
  - intros Hin. apply in_map_iff in Hin. destruct Hin as (b & Heq & Hb).
    apply Hnotin. apply in_map_iff. exists b. split; [| exact Hb].
    apply Hinj; [now right | now left | exact Heq].
  - apply IH; [exact Hnd' |].
    intros x y Hx Hy. apply Hinj; now right.
Qed.

(** Filtering a list keeps the images of its elements distinct. *)
Lemma filter_keeps_distinct_images {A B} (p : A -> bool) (f : A -> B)
    (xs : list A) :
  NoDup (map f xs) -> NoDup (map f (filter p xs)).
Proof.
  induction xs as [| x xs IHxs]; intros Hdistinct; [constructor |].
  cbn [map] in Hdistinct.
  inversion Hdistinct as [| ? ? Hfresh Hrest]; subst.
  cbn [filter]. destruct (p x); [| now apply IHxs].
  cbn [map]. constructor; [| now apply IHxs].
  intros Hin. apply Hfresh. apply in_map_iff in Hin.
  destruct Hin as (x' & Heq & Hx'). apply filter_In in Hx'.
  apply in_map_iff. exists x'. tauto.
Qed.

(** The rows of [apple_df] in closed form: the keys of the sheet whose
    name is APPLE INC, each under the position of its key among all the
    keys of the sheet, with the totals of its filings.  In particular
    [drop_duplicates] finds nothing to drop. *)
Lemma apple_rows_closed (df : Sheet.Frame) :
  Sheet.has_columns df required_columns = true ->
  Sheet.apple_rows df
  = Sheet.Loaded
      (map (fun lk => key_row df (fst lk) (snd lk))
           (filter apple_key (labelled_keys df))).
Proof.
  intros Hreq. unfold Sheet.apple_rows.
  rewrite !(select_loaded df) by
    (try exact Hreq; unfold required_columns; intros c Hc;
     repeat (apply in_or_app; ((left; exact Hc) || right));
     try exact Hc).
  rewrite merged_df_closed.
  rewrite (filter_map_commute _ Sheet.is_apple apple_key)
    by (intros lk; apply is_apple_key_row).
  f_equal. apply drop_duplicates_distinct; [| intros r _ []].
  rewrite map_map. cbn [key_row Sheet.m_fy Sheet.m_form].
  apply (NoDup_map_transfer _ snd).
  - apply filter_keeps_distinct_images. rewrite labelled_keys_snd.
    apply sorted_keys_nodup, sheet_keys_sorted.
  - intros [l [[y f] n]] [l' [[y' f'] n']] Hx Hy Heq.
    apply filter_In in Hx, Hy. destruct Hx as [_ Hx], Hy as [_ Hy].
    unfold apple_key in Hx, Hy. cbn [fst snd] in *.
    apply String.eqb_eq in Hx, Hy. inversion Heq. now subst.
Qed.

(** ** Missing columns *)

Lemma has_columns_app (df : Sheet.Frame) (a b : list string) :
  Sheet.has_columns df (a ++ b)
  = (Sheet.has_columns df a && Sheet.has_columns df b)%bool.
Proof. unfold Sheet.has_columns. apply forallb_app. Qed.

Lemma apple_rows_key_error (df : Sheet.Frame) :
  Sheet.has_columns df required_columns = false ->
  Sheet.apple_rows df = Sheet.KeyError.
Proof.
  intros Hreq. unfold Sheet.apple_rows, Sheet.select.
  change ("fy" :: "form" :: "name" :: Sheet.balance_sheet_items)%string
    with (["fy"; "form"; "name"]%string ++ Sheet.balance_sheet_items).
  change ("fy" :: "form" :: "name" :: Sheet.income_statement_items)%string
    with (["fy"; "form"; "name"]%string ++ Sheet.income_statement_items).
  change ("fy" :: "form" :: "name" :: Sheet.cash_flow_items)%string
    with (["fy"; "form"; "name"]%string ++ Sheet.cash_flow_items).
  unfold required_columns in Hreq. rewrite !has_columns_app in *.
  destruct (Sheet.has_columns df ["fy"; "form"; "name"]%string);
    [| reflexivity].
  destruct (Sheet.has_columns df Sheet.balance_sheet_items); [| reflexivity].
  destruct (Sheet.has_columns df Sheet.income_statement_items); [| reflexivity].
  destruct (Sheet.has_columns df Sheet.cash_flow_items); [discriminate | reflexivity].
Qed.

Lemma forallb_false_exists {A} (f : A -> bool) (l : list A) :
  forallb f l = false -> exists a, In a l /\ f a = false.
Proof.
  induction l as [| a l IH]; [discriminate |].
  cbn [forallb]. destruct (f a) eqn:Ea.
  - intros H. destruct (IH H) as (b & Hb & Hfb). exists b. split; [now right | exact Hfb].
  - intros _. exists a. split; [now left | exact Ea].
Qed.

(** X10.  [process_input_data] raises [KeyError] exactly when one of
    the thirteen columns it selects (fy, form, name and the ten
    statement items) is missing from the sheet; otherwise it returns a
    frame.  In particular a sheet without the capex column never
    reaches the label resolution. *)
Theorem process_input_data_key_error (df : Sheet.Frame) :
  Sheet.process_input_data df = Sheet.KeyError <->
  exists c, In c required_columns /\ ~ In c (Sheet.columns df).
Proof.
  unfold Sheet.process_input_data. split.
  - intros H.
    destruct (Sheet.has_columns df required_columns) eqn:Hreq.
    + rewrite (apple_rows_closed df Hreq) in H. discriminate.
    + unfold Sheet.has_columns in Hreq.
      apply forallb_false_exists in Hreq. destruct Hreq as (c & Hc & Hmiss).
      exists c. split; [exact Hc |]. intros Hin.
      assert (Hex : existsb (String.eqb c) (Sheet.columns df) = true)
        by (apply existsb_exists; exists c; split;
            [exact Hin | apply String.eqb_refl]).
      congruence.
  - intros (c & Hc & Hmiss).
    rewrite apple_rows_key_error; [reflexivity |].
    destruct (Sheet.has_columns df required_columns) eqn:Hreq; [| reflexivity].
    exfalso. apply Hmiss.
    now apply (proj1 (has_columns_spec df required_columns) Hreq).
Qed.

Lemma apple_rows_loaded_inv (df : Sheet.Frame) (l : list Sheet.MergedRow) :
  Sheet.apple_rows df = Sheet.Loaded l ->
  l = map (fun lk => key_row df (fst lk) (snd lk))
          (filter apple_key (labelled_keys df)).
Proof.
  intros H. destruct (Sheet.has_columns df required_columns) eqn:Hreq.
  - rewrite (apple_rows_closed df Hreq) in H. now inversion H.
  - rewrite (apple_rows_key_error df Hreq) in H. discriminate.
Qed.

(** ** One row per fiscal year and form of the company *)

Lemma row_key_some (r : Sheet.Row) (y : Z) (f n : string) :
  row_key r = Some (y, f, n) <->
  Sheet.fy r = Some y /\ Sheet.form r = Some f /\ Sheet.name r = Some n.
Proof.
  unfold row_key.
  destruct (Sheet.fy r), (Sheet.form r), (Sheet.name r); split;
    try discriminate; try (intros (H1 & H2 & H3); discriminate).
  - intros H. inversion H. auto.
  - intros (H1 & H2 & H3). inversion H1. inversion H2. inversion H3. reflexivity.
Qed.

Lemma in_labelled_keys (df : Sheet.Frame) (k : Sheet.Key) :
  (exists l, In (l, k) (labelled_keys df)) <-> In k (sheet_keys df).
Proof.
  rewrite <- (labelled_keys_snd df). rewrite in_map_iff. split.
  - intros (l & Hin). now exists (l, k).
  - intros ([l k'] & Heq & Hin). cbn in Heq. subst k'. now exists l.
Qed.

(** X11.  Every row of the returned frame carries the name APPLE INC
    in its three name columns, and the frame holds exactly one row for
    every pair of fiscal year and form under which the sheet has a
    filing of APPLE INC (with year, form and name filled): no such pair
    is missing and none occurs twice. *)
Theorem apple_rows_one_per_year_and_form
    (df : Sheet.Frame) (l : list Sheet.MergedRow) :
  Sheet.apple_rows df = Sheet.Loaded l ->
  (forall r, In r l ->
     Sheet.m_bs_name r = "APPLE INC"%string /\
     Sheet.m_is_name r = "APPLE INC"%string /\
     Sheet.m_cf_name r = "APPLE INC"%string) /\
  (forall y f,
     (exists r, In r l /\ Sheet.m_fy r = y /\ Sheet.m_form r = f) <->
     (exists r0, In r0 (Sheet.rows df) /\
                 Sheet.fy r0 = Some y /\ Sheet.form r0 = Some f /\
                 Sheet.name r0 = Some "APPLE INC"%string)) /\
  NoDup (map (fun r => (Sheet.m_fy r, Sheet.m_form r)) l).
Proof.
  intros H. apply apple_rows_loaded_inv in H. subst l.
  split; [| split].
  - intros r Hr. apply in_map_iff in Hr. destruct Hr as (lk & <- & Hlk).
    apply filter_In in Hlk. destruct Hlk as [_ Ha].
    unfold apple_key in Ha. apply String.eqb_eq in Ha. cbn. auto.
  - intros y f. split.
    + intros (r & Hr & Hy & Hf). apply in_map_iff in Hr.
      destruct Hr as ([lab [[y' f'] n]] & <- & Hlk).
      apply filter_In in Hlk. destruct Hlk as [Hin Ha].
      unfold apple_key in Ha. apply String.eqb_eq in Ha.
      cbn in Hy, Hf, Ha. subst y' f' n.
      assert (Hk : In (y, f, "APPLE INC"%string) (sheet_keys df))
        by (apply in_labelled_keys; now exists lab).
      apply sheet_keys_in in Hk. destruct Hk as (r0 & Hr0 & Hkey).
      exists r0. split; [exact Hr0 |]. now apply row_key_some.
    + intros (r0 & Hr0 & Hy & Hf & Hn).
      assert (Hk : In (y, f, "APPLE INC"%string) (sheet_keys df)).
      { apply sheet_keys_in. exists r0. split; [exact Hr0 |].
        now apply row_key_some. }
      apply in_labelled_keys in Hk. destruct Hk as (lab & Hin).
      exists (key_row df lab (y, f, "APPLE INC"%string)).
      split; [| split; reflexivity].
      apply in_map_iff. exists (lab, (y, f, "APPLE INC"%string)).
      split; [reflexivity |]. apply filter_In. split; [exact Hin | reflexivity].
  - rewrite map_map. cbn [key_row Sheet.m_fy Sheet.m_form].
    apply (NoDup_map_transfer _ snd).
    + apply filter_keeps_distinct_images. rewrite labelled_keys_snd.
      apply sorted_keys_nodup, sheet_keys_sorted.
    + intros [lab [[y f] n]] [lab' [[y' f'] n']] Hx Hy Heq.
      apply filter_In in Hx, Hy. destruct Hx as [_ Hx], Hy as [_ Hy].
      unfold apple_key in Hx, Hy. cbn [fst snd] in *.
      apply String.eqb_eq in Hx, Hy. inversion Heq. now subst.
Qed.

Lemma apple_rows_one_per_year_and_form_witness :
  NoDup (map (fun r => (Sheet.m_fy r, Sheet.m_form r))
             (map (fun lk => key_row sample_sheet (fst lk) (snd lk))
                  (filter apple_key (labelled_keys sample_sheet)))).
Proof.
  destruct (apple_rows_one_per_year_and_form sample_sheet
              (map (fun lk => key_row sample_sheet (fst lk) (snd lk))
                   (filter apple_key (labelled_keys sample_sheet))))
    as (_ & _ & H).
  - apply apple_rows_closed. reflexivity.
  - exact H.
Defined.

(** ** The order of the rows *)

Lemma StronglySorted_map_inv {A B} (R : B -> B -> Prop) (f : A -> B) (l : list A) :
  Sorted.StronglySorted R (map f l) ->
  Sorted.StronglySorted (fun a b => R (f a) (f b)) l.
Proof.
  induction l as [| a l IH]; intros H; [constructor |].
  cbn [map] in H. inversion H as [| ? ? Hs Hall]; subst.
  constructor; [now apply IH |].
  apply Forall_forall. intros b Hb. rewrite Forall_forall in Hall.
  apply Hall. apply in_map_iff. now exists b.
Qed.

Lemma StronglySorted_filter {A} (R : A -> A -> Prop) (p : A -> bool) (l : list A) :
  Sorted.StronglySorted R l -> Sorted.StronglySorted R (filter p l).
Proof.
  induction 1 as [| a l Hs IH Hall]; [constructor |].
  cbn [filter]. destruct (p a); [| exact IH].
  constructor; [exact IH |].
  apply Forall_forall. intros b Hb. apply filter_In in Hb.
  rewrite Forall_forall in Hall. now apply Hall.
Qed.

Lemma StronglySorted_map_in {A B} (R : A -> A -> Prop) (R' : B -> B -> Prop)
    (g : A -> B) (l : list A) :
  Sorted.StronglySorted R l ->
  (forall a b, In a l -> In b l -> R a b -> R' (g a) (g b)) ->
  Sorted.StronglySorted R' (map g l).
Proof.
  induction 1 as [| a l Hs IH Hall]; intros HR; [constructor |].
  cbn [map]. constructor.
  - apply IH. intros x y Hx Hy. apply HR; now right.
  - apply Forall_forall. intros b Hb. apply in_map_iff in Hb.
    destruct Hb as (x & <- & Hx). rewrite Forall_forall in Hall.
    apply HR; [now left | now right | now apply Hall].
Qed.

Lemma key_lt_same_name (y y' : Z) (f f' n : string) :
  key_lt (y, f, n) (y', f', n) ->
  (y < y')%Z \/ (y = y' /\ String.compare f f' = Lt).
Proof.
  unfold key_lt, Sheet.key_compare. cbn [fst snd].
  destruct (Z.compare_spec y y') as [-> | Hlt | Hgt]; try discriminate.
  - destruct (String.compare f f') eqn:E; try discriminate.
    + rewrite string_compare_refl. discriminate.
    + intros _. right. split; reflexivity.
  - intros _. now left.
Qed.

Lemma apple_keys_sorted (df : Sheet.Frame) :
  Sorted.StronglySorted (fun a b => key_lt (snd a) (snd b))
    (filter apple_key (labelled_keys df)).
Proof.
  apply StronglySorted_filter, StronglySorted_map_inv.
  rewrite labelled_keys_snd. apply sheet_keys_sorted.
Qed.

(** X12.  The rows of the returned frame are in strictly ascending
    order of (fiscal year, form), whatever the order of the filings in
    the sheet; hence the historical years handed to the valuation never
    decrease. *)
Theorem apple_rows_ascending (df : Sheet.Frame) (apple_df : Pandas.DataFrame) :
  Sheet.process_input_data df = Sheet.Loaded apple_df ->
  exists l,
    Sheet.apple_rows df = Sheet.Loaded l /\
    Pandas.rows apple_df = map Sheet.to_row l /\
    Sorted.StronglySorted year_form_lt l /\
    Sorted.StronglySorted Z.le (map Pandas.row_fy (Pandas.rows apple_df)).
Proof.
  unfold Sheet.process_input_data.
  destruct (Sheet.apple_rows df) as [l |] eqn:Hl; [| discriminate].
  intros H. inversion H. subst apple_df. clear H.
  exists l. split; [reflexivity |]. split; [reflexivity |].
  apply apple_rows_loaded_inv in Hl. subst l.
  assert (Hs : Sorted.StronglySorted year_form_lt
                 (map (fun lk => key_row df (fst lk) (snd lk))
                      (filter apple_key (labelled_keys df)))).
  { apply (StronglySorted_map_in _ _ _ _ (apple_keys_sorted df)).
    intros [lab [[y f] n]] [lab' [[y' f'] n']] Ha Hb Hlt.
    apply filter_In in Ha, Hb. destruct Ha as [_ Ha], Hb as [_ Hb].
    unfold apple_key in Ha, Hb. cbn [fst snd] in *.
    apply String.eqb_eq in Ha, Hb. subst n n'.
    apply key_lt_same_name in Hlt. exact Hlt. }
  split; [exact Hs |].
  cbn [Pandas.rows]. rewrite map_map. cbn [Sheet.to_row Pandas.row_fy].
  apply (StronglySorted_map_in year_form_lt Z.le Sheet.m_fy _ Hs).
  intros a b _ _ [Hlt | [Heq _]]; lia.
Qed.

Lemma apple_rows_ascending_witness :
  exists l,
    Sheet.apple_rows sample_sheet = Sheet.Loaded l /\
    map Sheet.m_fy l = [2020%Z; 2021%Z].
Proof.
  destruct (apple_rows_ascending sample_sheet
              {| Pandas.columns := Sheet.apple_columns;
                 Pandas.rows :=
                   map Sheet.to_row
                     (map (fun lk => key_row sample_sheet (fst lk) (snd lk))
                          (filter apple_key (labelled_keys sample_sheet))) |})
    as (l & Hl & _).
  - unfold Sheet.process_input_data.
    now rewrite (apple_rows_closed sample_sheet eq_refl).
  - exists l. split; [exact Hl |].
    rewrite (apple_rows_closed sample_sheet eq_refl) in Hl.
    inversion Hl. reflexivity.
Defined.

(** ** The cells and the labels of the rows *)

Lemma cell_key_row (df : Sheet.Frame) (lab : Z) (k : Sheet.Key) (c : string) :
  In c (Sheet.balance_sheet_items ++ Sheet.income_statement_items ++
        Sheet.cash_flow_items) ->
  Pandas.cell (Sheet.to_row (key_row df lab k)) c = num (total df k c).
Proof.
  intros Hc. cbn in Hc.
  repeat (destruct Hc as [<- | Hc]; [reflexivity |]).
  contradiction.
Qed.

(** X13.  Every statement item of a returned row is a number, never
    NaN: the total of that item over all the filings of the sheet that
    carry the row's fiscal year and form and the name APPLE INC, an
    empty cell counting as 0. *)
Theorem apple_cells_are_totals (df : Sheet.Frame) (l : list Sheet.MergedRow) :
  Sheet.apple_rows df = Sheet.Loaded l ->
  forall r c,
    In r l ->
    In c (Sheet.balance_sheet_items ++ Sheet.income_statement_items ++
          Sheet.cash_flow_items) ->
    Pandas.cell (Sheet.to_row r) c
    = num (Sheet.item_sum
             (map (fun r0 => Sheet.item r0 c)
                  (filings df (Sheet.m_fy r, Sheet.m_form r, "APPLE INC"%string)))).
Proof.
  intros H r c Hr Hc. apply apple_rows_loaded_inv in H. subst l.
  apply in_map_iff in Hr. destruct Hr as ([lab [[y f] n]] & <- & Hlk).
  apply filter_In in Hlk. destruct Hlk as [_ Ha].
  unfold apple_key in Ha. cbn [fst snd] in Ha. apply String.eqb_eq in Ha.
  subst n. rewrite cell_key_row by exact Hc. reflexivity.
Qed.

Lemma apple_cells_are_totals_witness :
  Pandas.cell
    (Sheet.to_row (key_row sample_sheet 2 (2021%Z, "10-K", "APPLE INC")%string))
    cfo_label
  = num (Sheet.item_sum
           (map (fun r0 => Sheet.item r0 cfo_label)
                (filings sample_sheet (2021%Z, "10-K", "APPLE INC")%string))).
Proof.
  apply (apple_cells_are_totals sample_sheet _
           (apple_rows_closed sample_sheet eq_refl)
           (key_row sample_sheet 2 (2021%Z, "10-K", "APPLE INC")%string)
           cfo_label).
  - right. left. reflexivity.
  - cbn. tauto.
Defined.

Lemma in_combine_range {A} (K : list A) (lo : Z) (lab : Z) (k : A) :
  In (lab, k) (combine (range lo (lo + Z.of_nat (length K))) K) ->
  (lo <= lab)%Z /\ nth_error K (Z.to_nat (lab - lo)) = Some k.
Proof.
  revert lo. induction K as [| a K IH]; intros lo Hin.
  - rewrite range_empty in Hin by (cbn; lia). contradiction.
  - rewrite range_succ in Hin by (cbn [length]; lia).
    cbn [combine In] in Hin. destruct Hin as [Heq | Hin].
    + inversion Heq. subst. split; [lia |].
      now replace (Z.to_nat (lab - lab)) with 0%nat by lia.
    + replace (lo + Z.of_nat (length (a :: K)))%Z
        with (lo + 1 + Z.of_nat (length K))%Z in Hin by (cbn [length]; lia).
      destruct (IH (lo + 1)%Z Hin) as [Hle Hnth]. split; [lia |].
      replace (Z.to_nat (lab - lo)) with (S (Z.to_nat (lab - (lo + 1)))) by lia.
      exact Hnth.
Qed.

Lemma apple_labels_nodup (df : Sheet.Frame) :
  NoDup (map fst (filter apple_key (labelled_keys df))).
Proof.
  apply filter_keeps_distinct_images. rewrite labelled_keys_fst. apply range_NoDup.
Qed.

(** X14.  The index label of a returned row is the position of its key
    (fiscal year, form, name) among the distinct keys of all the
    companies of the sheet in ascending order, not its position among
    the rows of APPLE INC.  The labels are distinct. *)
Theorem apple_labels_are_positions_among_all_keys
    (df : Sheet.Frame) (l : list Sheet.MergedRow) :
  Sheet.apple_rows df = Sheet.Loaded l ->
  Sorted.StronglySorted key_lt (sheet_keys df) /\
  (forall k, In k (sheet_keys df) <->
             exists r0, In r0 (Sheet.rows df) /\ row_key r0 = Some k) /\
  (forall r, In r l ->
     (0 <= Sheet.m_label r)%Z /\
     nth_error (sheet_keys df) (Z.to_nat (Sheet.m_label r))
     = Some (Sheet.m_fy r, Sheet.m_form r, "APPLE INC"%string)) /\
  NoDup (map Sheet.m_label l).
Proof.
  intros H. apply apple_rows_loaded_inv in H. subst l.
  split; [apply sheet_keys_sorted |].
  split; [apply sheet_keys_in |].
  split.
  - intros r Hr. apply in_map_iff in Hr.
    destruct Hr as ([lab [[y f] n]] & <- & Hlk).
    apply filter_In in Hlk. destruct Hlk as [Hin Ha].
    unfold apple_key in Ha. cbn [fst snd] in Ha. apply String.eqb_eq in Ha.
    subst n. cbn [key_row Sheet.m_label Sheet.m_fy Sheet.m_form fst snd].
    unfold labelled_keys in Hin.
    apply (in_combine_range (sheet_keys df) 0) in Hin.
    destruct Hin as [Hle Hnth]. split; [exact Hle |].
    now rewrite Z.sub_0_r in Hnth.
  - rewrite map_map. cbn [key_row Sheet.m_label]. apply apple_labels_nodup.
Qed.

Lemma apple_labels_are_positions_among_all_keys_witness :
  map Sheet.m_label
      (map (fun lk => key_row sample_sheet (fst lk) (snd lk))
           (filter apple_key (labelled_keys sample_sheet)))
  = [1%Z; 2%Z] /\
  NoDup (map Sheet.m_label
           (map (fun lk => key_row sample_sheet (fst lk) (snd lk))
                (filter apple_key (labelled_keys sample_sheet)))).
Proof.
  split; [reflexivity |].
  apply (apple_labels_are_positions_among_all_keys sample_sheet _
           (apple_rows_closed sample_sheet eq_refl)).
Defined.

(** ** From the sheet to the FCFF *)

Lemma resolver_single_found (df : Pandas.DataFrame) (l : string) :
  Pandas.has_column df l = true ->
  (exists r, In r (Pandas.rows df) /\ nonzero_cell (Pandas.cell r l)) ->
  found_label (get_financial_value df [l]) = Some l.
Proof.
  intros Hp (r & Hr & Hnz).
  assert (Hfound : found_label (get_financial_value df [l]) <> None).
  { intros Hnone. unfold get_financial_value in Hnone.
    apply (proj1 (resolver_none_iff df [l]
                    {| max_abs_value :=
                         Pandas.constant_series (num 0) (Pandas.len df);
                       found_label := None |} eq_refl
                    (sum_constant_series_zero (Pandas.len df))) Hnone l
                 (or_introl eq_refl) Hp).
    apply abs_sum_positive. now exists r. }
  unfold get_financial_value in *.
  destruct (resolver_loop_shape df [l]
              {| max_abs_value := Pandas.constant_series (num 0) (Pandas.len df);
                 found_label := None |})
    as [Heq | (l' & Hl' & _ & Heq)]; rewrite Heq in *; cbn [found_label] in *.
  - contradiction.
  - destruct Hl' as [<- | []]. reflexivity.
Qed.

Lemma resolver_single_none (df : Pandas.DataFrame) (l : string) :
  (forall r, In r (Pandas.rows df) -> ~ nonzero_cell (Pandas.cell r l)) ->
  found_label (get_financial_value df [l]) = None.
Proof.
  intros Hz. unfold get_financial_value.
  apply (resolver_none_iff df [l]
           {| max_abs_value := Pandas.constant_series (num 0) (Pandas.len df);
              found_label := None |} eq_refl
           (sum_constant_series_zero (Pandas.len df))).
  intros l' [<- | []] _ Hpos.
  apply abs_sum_positive in Hpos. destruct Hpos as (r & Hr & Hnz).
  now apply (Hz r Hr).
Qed.

Lemma process_input_data_loaded_inv (df : Sheet.Frame) (apple_df : Pandas.DataFrame) :
  Sheet.process_input_data df = Sheet.Loaded apple_df ->
  apple_df
  = {| Pandas.columns := Sheet.apple_columns;
       Pandas.rows :=
         map Sheet.to_row
           (map (fun lk => key_row df (fst lk) (snd lk))
                (filter apple_key (labelled_keys df))) |}.
Proof.
  unfold Sheet.process_input_data.
  destruct (Sheet.apple_rows df) as [l |] eqn:Hl; [| discriminate].
  intros H. inversion H. apply apple_rows_loaded_inv in Hl. now subst l.
Qed.

Lemma apple_frame_labels_nodup (df : Sheet.Frame) :
  NoDup (map Pandas.row_label
           (map Sheet.to_row
              (map (fun lk => key_row df (fst lk) (snd lk))
                   (filter apple_key (labelled_keys df))))).
Proof.
  rewrite !map_map. cbn [Sheet.to_row key_row Pandas.row_label Sheet.m_label].
  apply apple_labels_nodup.
Qed.

(** X15.  From the sheet to the FCFF, when APPLE INC has a non-zero
    total of operating cash flow in some year and a non-zero total of
    capital expenditure in some year: the FCFF of every row is the
    total of operating cash flow of its year and form minus the total
    of capital expenditure, a number. *)
Theorem sheet_fcff_is_difference_of_totals
    (df : Sheet.Frame) (apple_df : Pandas.DataFrame) :
  Sheet.process_input_data df = Sheet.Loaded apple_df ->
  (exists r, In r (Pandas.rows apple_df) /\
             nonzero_cell (Pandas.cell r cfo_label)) ->
  (exists r, In r (Pandas.rows apple_df) /\
             nonzero_cell (Pandas.cell r capex_label)) ->
  exists l,
    Sheet.apple_rows df = Sheet.Loaded l /\
    fcff_column apple_df label_variations_cfo label_variations_capex
    = map (fun r =>
             num (total df (Sheet.m_fy r, Sheet.m_form r, Sheet.m_bs_name r)
                        cfo_label
                  - total df (Sheet.m_fy r, Sheet.m_form r, Sheet.m_bs_name r)
                          capex_label)) l.
Proof.
  intros Hload Hcfo Hcapex.
  pose proof (process_input_data_loaded_inv df apple_df Hload) as ->.
  exists (map (fun lk => key_row df (fst lk) (snd lk))
              (filter apple_key (labelled_keys df))).
  split.
  { unfold Sheet.process_input_data in Hload.
    destruct (Sheet.apple_rows df) as [l |] eqn:Hl; [| discriminate].
    f_equal. now apply apple_rows_loaded_inv in Hl. }
  unfold fcff_column. rewrite assigned_sub.
  rewrite (resolver_found_column _ label_variations_cfo cfo_label)
    by (apply resolver_single_found; [reflexivity | exact Hcfo]).
  rewrite (resolver_found_column _ label_variations_capex capex_label)
    by (apply resolver_single_found; [reflexivity | exact Hcapex]).
  cbn [Pandas.rows]. rewrite map_map.
  apply map_ext_in. intros r Hr.
  rewrite !lookup_row
    by (try apply apple_frame_labels_nodup; apply in_map; exact Hr).
  apply in_map_iff in Hr. destruct Hr as (lk & <- & _).
  rewrite !cell_key_row by (cbn; tauto).
  reflexivity.
Qed.

(** X16.  From the sheet to the FCFF, when APPLE INC has a non-zero
    total of operating cash flow in some year but every total of
    capital expenditure is zero: no capex label is chosen, and the FCFF
    of a row is its total of operating cash flow (minus 0) if the
    position of its key among the keys of all companies is below the
    number of rows of APPLE INC, and NaN otherwise.  A company without
    capital expenditure whose filings do not come first in the sheet's
    key order thus gets NaN for some or all of its years. *)
Theorem sheet_fcff_without_capex
    (df : Sheet.Frame) (apple_df : Pandas.DataFrame) :
  Sheet.process_input_data df = Sheet.Loaded apple_df ->
  (exists r, In r (Pandas.rows apple_df) /\
             nonzero_cell (Pandas.cell r cfo_label)) ->
  (forall r, In r (Pandas.rows apple_df) ->
             ~ nonzero_cell (Pandas.cell r capex_label)) ->
  exists l,
    Sheet.apple_rows df = Sheet.Loaded l /\
    found_label (get_financial_value apple_df label_variations_capex) = None /\
    fcff_column apple_df label_variations_cfo label_variations_capex
    = map (fun r =>
             if (Sheet.m_label r <? Z.of_nat (length l))%Z
             then num (total df (Sheet.m_fy r, Sheet.m_form r, Sheet.m_bs_name r)
                             cfo_label - 0)
             else nan) l.
Proof.
  intros Hload Hcfo Hcapex.
  pose proof (process_input_data_loaded_inv df apple_df Hload) as ->.
  exists (map (fun lk => key_row df (fst lk) (snd lk))
              (filter apple_key (labelled_keys df))).
  split.
  { unfold Sheet.process_input_data in Hload.
    destruct (Sheet.apple_rows df) as [l |] eqn:Hl; [| discriminate].
    f_equal. now apply apple_rows_loaded_inv in Hl. }
  assert (Hnone : found_label
            (get_financial_value
               {| Pandas.columns := Sheet.apple_columns;
                  Pandas.rows :=
                    map Sheet.to_row
                      (map (fun lk => key_row df (fst lk) (snd lk))
                           (filter apple_key (labelled_keys df))) |}
               label_variations_capex) = None)
    by (apply resolver_single_none; exact Hcapex).
  split; [exact Hnone |].
  unfold fcff_column. rewrite assigned_sub.
  rewrite (resolver_found_column _ label_variations_cfo cfo_label)
    by (apply resolver_single_found; [reflexivity | exact Hcfo]).
  rewrite (resolver_none_default _ label_variations_capex Hnone).
  cbn [Pandas.rows]. rewrite map_map.
  apply map_ext_in. intros r Hr.
  rewrite lookup_row
    by (try apply apple_frame_labels_nodup; apply in_map; exact Hr).
  rewrite lookup_constant_series.
  unfold Pandas.len. cbn [Pandas.rows]. rewrite length_map.
  apply in_map_iff in Hr. destruct Hr as (lk & <- & Hlk).
  assert (H0 : (0 <= fst lk)%Z).
  { apply filter_In in Hlk. destruct Hlk as [Hin _].
    destruct lk as [lab k]. unfold labelled_keys in Hin.
    now apply (in_combine_range (sheet_keys df) 0) in Hin. }
  cbn [Sheet.to_row key_row Pandas.row_label Sheet.m_label].
  destruct (Z.leb_spec 0 (fst lk)) as [_ | Hneg]; [| lia]. cbn [andb].
  destruct (fst lk <? _)%Z; [| reflexivity].
  rewrite cell_key_row by (cbn; tauto). reflexivity.
Qed.

Lemma apple_frame_loaded (capex : pyfloat) :
  Sheet.process_input_data (sheet_with_capex capex)
  = Sheet.Loaded (apple_frame (sheet_with_capex capex)).
Proof.
  unfold Sheet.process_input_data.
  now rewrite (apple_rows_closed (sheet_with_capex capex) eq_refl).
Qed.

Lemma sheet_fcff_is_difference_of_totals_witness :
  exists l,
    Sheet.apple_rows sample_sheet_capex = Sheet.Loaded l /\
    Forall2 feq
      (fcff_column (apple_frame sample_sheet_capex)
                   label_variations_cfo label_variations_capex)
      [num 7; num 8].
Proof.
  destruct (sheet_fcff_is_difference_of_totals sample_sheet_capex
              (apple_frame sample_sheet_capex))
    as (l & Hl & Hfcff).
  - apply apple_frame_loaded.
  - eexists. split; [right; left; reflexivity |].
    eexists. split; [reflexivity | discriminate].
  - eexists. split; [right; left; reflexivity |].
    eexists. split; [reflexivity | discriminate].
  - exists l. split; [exact Hl |].
    rewrite Hfcff.
    rewrite (apple_rows_closed sample_sheet_capex eq_refl) in Hl.
    inversion Hl. repeat constructor.
Defined.

Lemma sheet_fcff_without_capex_witness :
  exists l,
    Sheet.apple_rows sample_sheet = Sheet.Loaded l /\
    Forall2 feq
      (fcff_column (apple_frame sample_sheet)
                   label_variations_cfo label_variations_capex)
      [num 7; nan].
Proof.
  destruct (sheet_fcff_without_capex sample_sheet (apple_frame sample_sheet))
    as (l & Hl & _ & Hfcff).
  - apply apple_frame_loaded.
  - eexists. split; [left; reflexivity |].
    eexists. split; [reflexivity | discriminate].
  - intros r [<- | [<- | []]] (q & Hq & Hnz); vm_compute in Hq;
      inversion Hq; subst q; apply Hnz; reflexivity.
  - exists l. split; [exact Hl |].
    rewrite Hfcff.
    rewrite (apple_rows_closed sample_sheet eq_refl) in Hl.
    inversion Hl. repeat constructor.
Defined.

(* ================================================================== *)
(* ------------------------------------------------------------------ *)
(** * The resolver on the frames that [process_input_data] returns *)

(** ** A candidate list of one label *)



(** ** The choice of the label *)




(** ** A concept without a candidate column *)

Lemma missing_item_key_error (df : Sheet.Frame) (c : string) :
  In c required_columns ->
  ~ In c (Sheet.columns df) ->
  Sheet.process_input_data df = Sheet.KeyError.
Proof.
  intros Hreq Hmiss. unfold Sheet.process_input_data.
  rewrite apple_rows_key_error; [reflexivity |].
  destruct (Sheet.has_columns df required_columns) eqn:Hall; [| reflexivity].
  exfalso. apply Hmiss. now apply (proj1 (has_columns_spec df required_columns) Hall).
Qed.

(** C7, as stated, fails: the sheet [sheet_without_capex] holds no
    column for the only candidate label of capex, and the run is
    aborted; [process_input_data] raises KeyError when it selects the
    columns (line 10), before the resolver is reached. *)
Lemma C7_counterexample_missing_column_aborts :
  Sheet.has_columns sheet_without_capex label_variations_capex = false /\
  Sheet.process_input_data sheet_without_capex = Sheet.KeyError /\
  dcf_analysis_of_sheet sheet_without_capex (1 # 10) (1 # 50) 20
  = Sheet.KeyError.
Proof. repeat split; vm_compute; reflexivity. Qed.

(** C7, amended.  For every sheet in which the candidate label of cfo
    or the candidate label of capex is not a column, the selection of
    the columns raises KeyError and the run is aborted.  Hence every
    frame that reaches the resolver holds both candidate columns; on
    such a frame no label is reported as chosen exactly when the
    concept's column holds no number other than zero in any period, and
    the resolved value is then the default Series of zeros. *)
Theorem C7_missing_candidate_column_aborts
    (df : Sheet.Frame) (r g : Q) (N : Z) :
  (~ In cfo_label (Sheet.columns df) \/ ~ In capex_label (Sheet.columns df) ->
   Sheet.process_input_data df = Sheet.KeyError /\
   dcf_analysis_of_sheet df r g N = Sheet.KeyError) /\
  (forall apple_df, Sheet.process_input_data df = Sheet.Loaded apple_df ->
   forall l, l = cfo_label \/ l = capex_label ->
     Pandas.has_column apple_df l = true /\
     (found_label (get_financial_value apple_df [l]) = None <->
      forall row, In row (Pandas.rows apple_df) ->
                  ~ nonzero_cell (Pandas.cell row l)) /\
     (found_label (get_financial_value apple_df [l]) = None ->
      max_abs_value (get_financial_value apple_df [l])
      = Pandas.constant_series (num 0) (Pandas.len apple_df))).
Proof.
  split.
  - intros Hmiss.
    assert (Hk : Sheet.process_input_data df = Sheet.KeyError).
    { destruct Hmiss as [Hmiss | Hmiss].
      - apply (missing_item_key_error df cfo_label); [| exact Hmiss].
        vm_compute. tauto.
      - apply (missing_item_key_error df capex_label); [| exact Hmiss].
        vm_compute. tauto. }
    split; [exact Hk |]. unfold dcf_analysis_of_sheet. now rewrite Hk.
  - intros apple_df Hload l Hl.
    apply process_input_data_loaded_inv in Hload.
    assert (Hcol : Pandas.has_column apple_df l = true).
    { rewrite Hload. destruct Hl as [-> | ->]; reflexivity. }
    split; [exact Hcol |]. split.
    + split.
      * intros Hnone row Hrow Hnz.
        rewrite (resolver_single_found apple_df l Hcol) in Hnone;
          [discriminate |].
        now exists row.
      * apply resolver_single_none.
    + apply resolver_none_default.
Qed.

Lemma C7_missing_candidate_column_aborts_witness :
  (Sheet.process_input_data sheet_without_capex = Sheet.KeyError /\
   dcf_analysis_of_sheet sheet_without_capex (1 # 10) (1 # 50) 20
   = Sheet.KeyError) /\
  Pandas.has_column (apple_frame sample_sheet) capex_label = true.
Proof.
  split.
  - apply (proj1 (C7_missing_candidate_column_aborts
                    sheet_without_capex (1 # 10) (1 # 50) 20)).
    right. intros H. cbn in H.
    repeat (destruct H as [H | H]; [discriminate H |]). exact H.
  - apply (proj2 (C7_missing_candidate_column_aborts
                    sample_sheet (1 # 10) (1 # 50) 20)
                 (apple_frame sample_sheet) (apple_frame_loaded nan)
                 capex_label).
    now right.
Defined.

(** * The archive names requested by [get_combined_financials] *)

Section ArchiveNames.

Import Ascii.

Lemma py_str_inj (a b : Z) : py_str a = py_str b -> a = b.
Proof.
  unfold py_str. intros H.
  apply (f_equal DecimalString.NilEmpty.int_of_string) in H.
  rewrite !DecimalString.NilEmpty.isi in H. inversion H as [H'].
  apply (f_equal Z.of_int) in H'. now rewrite !DecimalZ.of_to in H'.
Qed.

Lemma string_of_uint_chars (c : Ascii.ascii) (d : Decimal.uint) :
  occurs c (DecimalString.NilEmpty.string_of_uint d) ->
  In c ["0"; "1"; "2"; "3"; "4"; "5"; "6"; "7"; "8"; "9"]%char.
Proof.
  induction d as [| d IH | d IH | d IH | d IH | d IH | d IH | d IH | d IH
                  | d IH | d IH ]; cbn [DecimalString.NilEmpty.string_of_uint occurs];
    [contradiction | ..];
    (intros [-> | H]; [cbn; tauto | now apply IH]).
Qed.

(** [str] of an int holds digits and the minus sign only. *)
Lemma py_str_chars (c : Ascii.ascii) (z : Z) :
  occurs c (py_str z) ->
  In c ["-"; "0"; "1"; "2"; "3"; "4"; "5"; "6"; "7"; "8"; "9"]%char.
Proof.
  unfold py_str. destruct (Z.to_int z) as [d | d];
    cbn [DecimalString.NilEmpty.string_of_int occurs].
  - intros H. right. now apply (string_of_uint_chars c d).
  - intros [-> | H]; [now left | right; now apply (string_of_uint_chars c d)].
Qed.

(** Two strings free of a separator, each followed by the separator,
    can be read back from the concatenation. *)
Lemma append_separator_inj (c : Ascii.ascii) (s1 s2 t1 t2 : string) :
  ~ occurs c s1 -> ~ occurs c s2 ->
  (s1 ++ String c t1 = s2 ++ String c t2)%string ->
  s1 = s2 /\ t1 = t2.
Proof.
  revert s2. induction s1 as [| a s1 IH]; intros [| b s2] H1 H2 Heq;
    cbn [append] in Heq.
  - inversion Heq. auto.
  - inversion Heq. subst. exfalso. apply H2. now left.
  - inversion Heq. subst. exfalso. apply H1. now left.
  - inversion Heq. subst.
    destruct (IH s2) as [-> ->]; [| | assumption | auto].
    + intros H. apply H1. now right.
    + intros H. apply H2. now right.
Qed.

Lemma zip_name_inj (y1 q1 y2 q2 : Z) :
  zip_name y1 q1 = zip_name y2 q2 -> y1 = y2 /\ q1 = q2.
Proof.
  unfold zip_name. intros H.
  change ("q" ++ py_str q1 ++ ".zip")%string
    with (String "q"%char (py_str q1 ++ String "."%char "zip"))%string in H.
  change ("q" ++ py_str q2 ++ ".zip")%string
    with (String "q"%char (py_str q2 ++ String "."%char "zip"))%string in H.
  apply append_separator_inj in H.
  - destruct H as [Hy Hq]. apply py_str_inj in Hy.
    apply append_separator_inj in Hq.
    + destruct Hq as [Hq _]. apply py_str_inj in Hq. auto.
    + intros Hc. apply py_str_chars in Hc. cbn in Hc.
      repeat (destruct Hc as [Hc | Hc]; [discriminate |]). contradiction.
    + intros Hc. apply py_str_chars in Hc. cbn in Hc.
      repeat (destruct Hc as [Hc | Hc]; [discriminate |]). contradiction.
  - intros Hc. apply py_str_chars in Hc. cbn in Hc.
    repeat (destruct Hc as [Hc | Hc]; [discriminate |]). contradiction.
  - intros Hc. apply py_str_chars in Hc. cbn in Hc.
    repeat (destruct Hc as [Hc | Hc]; [discriminate |]). contradiction.
Qed.

Lemma zip_names_length (years : list Z) :
  length (zip_names years) = (4 * length years)%nat.
Proof.
  unfold zip_names. induction years as [| y ys IH]; [reflexivity |].
  cbn [flat_map]. rewrite length_app, IH, length_map, range_length.
  cbn [length]. change (Z.to_nat (5 - 1)) with 4%nat. lia.
Qed.

Lemma zip_names_in (years : list Z) (s : string) :
  In s (zip_names years) <->
  exists y q, In y years /\ (1 <= q <= 4)%Z /\ s = zip_name y q.
Proof.
  unfold zip_names. rewrite in_flat_map. split.
  - intros (y & Hy & Hs). apply in_map_iff in Hs. destruct Hs as (q & <- & Hq).
    apply in_range in Hq. exists y, q. repeat split; try assumption; lia.
  - intros (y & q & Hy & Hq & ->). exists y. split; [exact Hy |].
    apply in_map_iff. exists q. split; [reflexivity |]. apply in_range. lia.
Qed.

(** X18.  The list of archive names holds four names per year, one for
    each quarter 1 to 4: a name is in the list exactly when it is
    [<year>q<quarter>.zip] for a listed year and a quarter from 1 to 4.
    Different (year, quarter) pairs give different names, so when the
    years are distinct no archive is requested twice. *)
Theorem zip_names_distinct (years : list Z) :
  NoDup years ->
  length (zip_names years) = (4 * length years)%nat /\
  (forall s, In s (zip_names years) <->
             exists y q, In y years /\ (1 <= q <= 4)%Z /\ s = zip_name y q) /\
  (forall y1 q1 y2 q2,
     zip_name y1 q1 = zip_name y2 q2 -> y1 = y2 /\ q1 = q2) /\
  NoDup (zip_names years).
Proof.
  intros Hnd.
  split; [apply zip_names_length |].
  split; [apply zip_names_in |].
  split; [apply zip_name_inj |].
  unfold zip_names. induction Hnd as [| y ys Hnotin Hnd IH]; [constructor |].
  cbn [flat_map]. apply NoDup_app.
  - apply (NoDup_map_transfer _ (fun q => q)).
    + rewrite map_id. apply range_NoDup.
    + intros q q' _ _ H. now apply zip_name_inj in H.
  - exact IH.
  - intros s Hs Hs'. apply in_map_iff in Hs. destruct Hs as (q & <- & _).
    apply in_flat_map in Hs'. destruct Hs' as (y' & Hy' & Hs').
    apply in_map_iff in Hs'. destruct Hs' as (q' & Heq & _).
    apply zip_name_inj in Heq. destruct Heq as [-> _]. contradiction.
Qed.

Lemma zip_names_distinct_witness :
  zip_names [2014%Z; 2015%Z]
  = ["2014q1.zip"; "2014q2.zip"; "2014q3.zip"; "2014q4.zip";
     "2015q1.zip"; "2015q2.zip"; "2015q3.zip"; "2015q4.zip"]%string /\
  NoDup (zip_names [2014%Z; 2015%Z]).
Proof.
  split; [reflexivity |].
  apply (zip_names_distinct [2014%Z; 2015%Z]).
  repeat constructor; cbn; intuition discriminate.
Defined.

End ArchiveNames.
